(** * detect-cms-cli.js: the scan pipeline

    A shallow embedding of [src/detect-cms-cli.js]: the plan table, the
    detector client's normalisation, the per-domain scan loop with its
    quota counter, the fixed-width projection of technologies into the
    row object, and the output namer.

    Conventions.
    - JavaScript strings are [string]; the scalar values that the JSON
      payload can carry are [jsval].
    - The row pushed to [results] is a JavaScript object indexed by
      computed keys ([`tech${i+1}_name`]); it is a [gmap string jsval].
    - The network, the clock, the file system and [JSON.stringify] are
      the environment: they enter as explicit arguments. *)

From Stdlib Require Import Ascii String ZArith Lia.
From stdpp Require Import base numbers list strings gmap pretty.

(** ** JavaScript values *)

(** The values that a field of the JSON payload can hold, as far as
    the program looks at them: whether they are truthy, whether they
    are strings, and what [ToString] gives for them. [JNumber n] is an
    integer-valued number below 10^21 in magnitude, which [ToString]
    prints in full; [JOther text] is any other value, all of them
    truthy and none a string (a number with a fraction or of 10^21 and
    more, an array, an object), with the text that [ToString] gives
    for it. *)
Inductive jsval :=
| JUndefined
| JNull
| JBool (b : bool)
| JNumber (n : Z)
| JString (s : string)
| JOther (text : string).

Global Instance jsval_eq_dec : EqDecision jsval.
Proof. solve_decision. Defined.

(** [ToBoolean]: [undefined], [null], [false], [0] and [''] are falsy. *)
Definition truthy (v : jsval) : bool :=
  match v with
  | JUndefined | JNull => false
  | JBool b => b
  | JNumber n => negb (n =? 0)%Z
  | JString s => negb (String.eqb s "")
  | JOther _ => true
  end.

(** [v || d] *)
Definition js_or (v d : jsval) : jsval := if truthy v then v else d.

(** [ToString], as used by [new Error(msg)] and by template literals. *)
Definition js_to_string (v : jsval) : string :=
  match v with
  | JUndefined => "undefined"
  | JNull => "null"
  | JBool true => "true"
  | JBool false => "false"
  | JNumber n => pretty n
  | JString s => s
  | JOther text => text
  end.

(** Truthiness of an optional string option of the command line
    ([opts.domain], [opts.input]): absent and [''] are falsy. *)
Definition str_truthy (o : option string) : bool :=
  match o with
  | Some s => negb (String.eqb s "")
  | None => false
  end.

(** ** Plans (lines 20-30) *)

Record Plan := { monthlyQuota : N; minTimeMs : N }.

(** The own entries of the table [PLANS], by plan identifier. What the
    object inherits is in [inherited_names] below. *)
Definition PLANS (id : string) : option Plan :=
  if String.eqb id "free" then Some {| monthlyQuota := 500%N; minTimeMs := 15000%N |}
  else if String.eqb id "10000" then Some {| monthlyQuota := 10000%N; minTimeMs := 5000%N |}
  else if String.eqb id "20000" then Some {| monthlyQuota := 20000%N; minTimeMs := 2000%N |}
  else if String.eqb id "50000" then Some {| monthlyQuota := 50000%N; minTimeMs := 1000%N |}
  else if String.eqb id "100000" then Some {| monthlyQuota := 100000%N; minTimeMs := 1000%N |}
  else if String.eqb id "200000" then Some {| monthlyQuota := 200000%N; minTimeMs := 250%N |}
  else if String.eqb id "300000" then Some {| monthlyQuota := 300000%N; minTimeMs := 250%N |}
  else if String.eqb id "400000" then Some {| monthlyQuota := 400000%N; minTimeMs := 250%N |}
  else if String.eqb id "500000" then Some {| monthlyQuota := 500000%N; minTimeMs := 250%N |}
  else None.

(** ** The upstream payload and the detection result *)

(** One entry of [results[]], an object [{name, id, version,
    categories[], url}]. [name], [id], [version] and [url] are any
    value, [undefined] standing for an absent field; [categories] is
    an array ([inr], the set of strings of the data model) or a value
    that is not an array ([inl], [undefined] when the field is
    absent). *)
Record Tech := {
  name : jsval;
  id : jsval;
  version : jsval;
  categories : jsval + list jsval;
  url : jsval
}.

(** [tech.name] *)
Definition name_val (t : Tech) : jsval := name t.

(** [Array.prototype.join] on an array of strings. *)
Fixpoint join (sep : string) (l : list string) : string :=
  match l with
  | [] => ""
  | [x] => x
  | x :: rest => x +:+ sep +:+ join sep rest
  end.

(** An element in [Array.prototype.join]: [undefined] and [null] give
    the empty string. *)
Definition join_item (v : jsval) : string :=
  match v with
  | JUndefined | JNull => ""
  | _ => js_to_string v
  end.

(** [tech.categories ? tech.categories.join(', ') : ''], line 281, where
    it does not throw: a truthy value that is not an array has no
    [join], and the loop tests for it before it builds the row (see
    [categories_throw]). *)
Definition categories_text (tech : Tech) : jsval :=
  match categories tech with
  | inr cs => JString (join ", " (join_item <$> cs))
  | inl _ => JString ""
  end.

(** ** Rows *)

(** [`tech${i}_${field}`] *)
Definition tech_key (i : nat) (field : string) : string :=
  "tech" +:+ pretty i +:+ "_" +:+ field.

Definition set_tech (i : nat) (n d v c u : jsval) (r : gmap string jsval)
  : gmap string jsval :=
  <[tech_key i "url" := u]>
  (<[tech_key i "categories" := c]>
  (<[tech_key i "version" := v]>
  (<[tech_key i "id" := d]>
  (<[tech_key i "name" := n]> r)))).

(** [for (let i = lo; i < hi; i++) body(i)], run for [hi - lo] turns. *)
Fixpoint for_loop {S : Type} (turns : nat) (i : nat) (body : nat → S → S) (s : S) : S :=
  match turns with
  | 0 => s
  | Datatypes.S turns' => for_loop turns' (Datatypes.S i) body (body i s)
  end.

Definition for_range {S : Type} (lo hi : nat) (body : nat → S → S) (s : S) : S :=
  for_loop (hi - lo) lo body s.

(** Lines 276-283: the body of the first slot loop; [results[i]] is in
    range there, since [i < Math.min(results.length, 10)]. *)
Definition fill_tech (results : list Tech) (i : nat) (r : gmap string jsval)
  : gmap string jsval :=
  match results !! i with
  | Some tech =>
      set_tech (i + 1)
        (js_or (name_val tech) (JString ""))
        (js_or (id tech) (JString ""))
        (js_or (version tech) (JString ""))
        (categories_text tech)
        (js_or (url tech) (JString ""))
        r
  | None => r
  end.

(** Lines 286-292: the body of the second slot loop. *)
Definition clear_tech (i : nat) (r : gmap string jsval) : gmap string jsval :=
  set_tech (i + 1) (JString "") (JString "") (JString "") (JString "") (JString "") r.

(** Lines 276-292. *)
Definition fill_slots (results : list Tech) (r : gmap string jsval)
  : gmap string jsval :=
  let r1 := for_range 0 (Nat.min (length results) 10) (fill_tech results) r in
  for_range (length results) 10 clear_tech r1.


(** ** Strings *)

Fixpoint string_map (f : ascii → ascii) (s : string) : string :=
  match s with
  | EmptyString => EmptyString
  | String c s' => String (f c) (string_map f s')
  end.

Definition between (lo hi c : ascii) : bool :=
  (nat_of_ascii lo <=? nat_of_ascii c)%nat && (nat_of_ascii c <=? nat_of_ascii hi)%nat.

(** [String.prototype.toLowerCase] on the ASCII letters; the other code
    units are kept (none of them lowers to a letter of ['umbraco']). *)
Definition lower_char (c : ascii) : ascii :=
  if between "A" "Z" c then ascii_of_nat (nat_of_ascii c + 32) else c.

Definition toLowerCase (s : string) : string := string_map lower_char s.

Definition is_alnum (c : ascii) : bool :=
  between "a" "z" c || between "A" "Z" c || between "0" "9" c.

(** [s.slice(0, -k)] *)
Definition slice_to_minus (k : nat) (s : string) : string :=
  substring 0 (String.length s - k) s.

(** [new Date().toISOString().replace(/[:.]/g, '-').slice(0, -5)], from
    the ISO string read off the clock. *)
Definition timestamp (iso : string) : string :=
  slice_to_minus 5
    (string_map (λ c, if Ascii.eqb c ":" || Ascii.eqb c "." then "-"%char else c) iso).

(** ** Paths ([path.extname], [path.basename] of Node, POSIX flavour) *)

Definition is_slash (c : ascii) : bool := Ascii.eqb c "/".
Definition is_dot (c : ascii) : bool := Ascii.eqb c ".".

Fixpoint take_while {A} (p : A → bool) (l : list A) : list A :=
  match l with
  | [] => []
  | x :: r => if p x then x :: take_while p r else []
  end.

Fixpoint drop_while {A} (p : A → bool) (l : list A) : list A :=
  match l with
  | [] => []
  | x :: r => if p x then drop_while p r else l
  end.

(** The last portion of a path: trailing separators are ignored, and
    the portion runs back to the separator before it. *)
Definition last_part (p : list ascii) : list ascii :=
  rev (take_while (λ c, negb (is_slash c)) (drop_while is_slash (rev p))).

(** The separators that end the path. *)
Definition trailing_slashes (p : list ascii) : list ascii :=
  take_while is_slash (rev p).

(** The suffix of a portion that starts at its last ['.'], if it has one. *)
Fixpoint from_last_dot (c : list ascii) : option (list ascii) :=
  match c with
  | [] => None
  | a :: r =>
      match from_last_dot r with
      | Some e => Some e
      | None => if is_dot a then Some c else None
      end
  end.

(** [path.extname]: from the last ['.'] of the last portion to its end;
    empty when there is no ['.'], when the only ['.'] is the first
    character of the portion, and for the portion ['..']. *)
Definition extname_chars (p : list ascii) : list ascii :=
  let c := last_part p in
  match from_last_dot c with
  | None => []
  | Some e =>
      if (length e =? length c)%nat then []
      else if bool_decide (c = ["."; "."]%char) then []
      else e
  end.

Definition ends_with (s l : list ascii) : bool :=
  (length s <=? length l)%nat && bool_decide (drop (length l - length s) l = s).

(** [path.basename(p, suffix)]: the last portion, without [suffix] when
    the portion ends with it and is longer than it. Node compares the
    suffix from the right while it walks the portion, hence the two
    corner cases: a path equal to the suffix gives [''], and a portion
    that is itself a proper ending of the suffix is returned together
    with the separators that follow it. *)
Definition basename_chars (p suffix : list ascii) : list ascii :=
  let c := last_part p in
  if bool_decide (suffix = []) || (length p <? length suffix)%nat then c
  else if bool_decide (p = suffix) then []
  else if ends_with suffix c && (length suffix <? length c)%nat
       then take (length c - length suffix) c
  else if ends_with c suffix && (length c <? length suffix)%nat
       then c ++ trailing_slashes p
  else c.

Definition extname (p : string) : string :=
  string_of_list_ascii (extname_chars (list_ascii_of_string p)).

Definition basename (p ext : string) : string :=
  string_of_list_ascii
    (basename_chars (list_ascii_of_string p) (list_ascii_of_string ext)).

(** ** The environment *)

(** An entry of [meta.social]: a flat object. *)
Definition Social := list (string * jsval).

Record ResultInfo := { code : jsval; msg : jsval }.

Record Meta := { social : option (list Social) }.

(** [resp.data], the body of the upstream answer, in the shape of the
    upstream's schema: [results] is absent (or falsy) or an array of
    objects, [result] and [meta] are absent or objects. The scalar
    fields, and the fields of a technology, hold any value. *)
Record Payload := {
  data_error : jsval;
  data_msg : jsval;
  data_request : jsval;
  data_last_checked : jsval;
  data_result : option ResultInfo;
  data_results : option (list Tech);
  data_meta : option Meta
}.

(** What [await axios.get(...)] does: it rejects with an error carrying
    a message (network failure, timeout, status outside 2xx), or it
    resolves with a body. *)
Inductive http_result :=
| HttpError (message : string)
| HttpOk (data : Payload).

(** Everything the program reads from outside itself.
    - [api_key]: [process.env.WHATCMS_API_KEY].
    - [axios_get i d]: the answer to the request made for domain [d] at
      turn [i] of the scan loop.
    - [stringify_results], [stringify_social]: [JSON.stringify] on the
      technology list and on the social metadata.
    - [fetch_majestic], [fetch_tranco]: the list that the fetcher
      resolves with (empty when the download fails), [None] when its
      stream fails and the promise is rejected.
    - [read_lines f]: the content of file [f] split at line ends,
      [None] when it cannot be read.
    - [existsSync]: [fs.existsSync].
    - [now_default], [now_exists]: [new Date().toISOString()] as read
      at line 122 and at line 152. *)
Record Env := {
  api_key : option string;
  axios_get : nat → string → http_result;
  stringify_results : list Tech → string;
  stringify_social : list Social → string;
  fetch_majestic : option (list string);
  fetch_tranco : option (list string);
  read_lines : string → option (list string);
  existsSync : string → bool;
  now_default : string;
  now_exists : string
}.

(** ** The detector client (lines 35-71) *)

Record TechData := {
  request : jsval;
  last_checked : jsval;
  result_code : jsval;
  result_msg : jsval;
  results : list Tech;
  meta_social : list Social;
  error : jsval
}.

(** The message of [new Error(m)]. *)
Definition error_message (m : jsval) : string :=
  match m with
  | JUndefined => ""
  | _ => js_to_string m
  end.

(** [detectCMS], from the outcome of its request: the thrown error's
    message on the left, the normalised result on the right. *)
Definition detectCMS (resp : http_result) : string + TechData :=
  match resp with
  | HttpError message => inl message
  | HttpOk data =>
      if truthy (data_error data) then inl (error_message (data_msg data))
      else inr {|
        request := js_or (data_request data) (JString "");
        last_checked := js_or (data_last_checked data) (JString "");
        result_code :=
          js_or (from_option code JUndefined (data_result data)) (JString "");
        result_msg :=
          js_or (from_option msg JUndefined (data_result data)) (JString "");
        results := default [] (data_results data);
        meta_social := default [] (data_meta data ≫= social);
        error := JString ""
      |}
  end.

(** ** Building rows (lines 262-294 and 298-320) *)

(** The object literal of lines 263-273 and of lines 299-309. *)
Definition base_row (domain request last_checked result_code result_msg
    results_count results_json meta_social_json error : jsval)
  : gmap string jsval :=
  <["error" := error]>
  (<["meta_social_json" := meta_social_json]>
  (<["results_json" := results_json]>
  (<["results_count" := results_count]>
  (<["result_msg" := result_msg]>
  (<["result_code" := result_code]>
  (<["last_checked" := last_checked]>
  (<["request" := request]>
  (<["domain" := domain]> ∅)))))))).

Definition result_row (env : Env) (domain : string) (techData : TechData)
  : gmap string jsval :=
  fill_slots (results techData)
    (base_row (JString domain) (request techData) (last_checked techData)
       (result_code techData) (result_msg techData)
       (JNumber (Z.of_nat (length (results techData))))
       (JString (stringify_results env (results techData)))
       (JString (stringify_social env (meta_social techData)))
       (error techData)).

Definition error_row (domain message : string) : gmap string jsval :=
  for_range 1 11
    (λ i, set_tech i (JString "") (JString "") (JString "") (JString "") (JString ""))
    (base_row (JString domain) (JString "") (JString "") (JString "")
       (JString "") (JNumber 0) (JString "") (JString "") (JString message)).

(** ** The scan loop (lines 234-322) *)

(** What the loop does that can be seen from outside: the lines it
    prints and the requests it makes. *)
Inductive event :=
| LogScanning (i total : nat) (domain : string)
| Request (i : nat) (domain : string)
| LogUmbraco (i total : nat) (domain : string) (version_note : string)
| LogNotUmbraco (i total : nat) (domain : string) (tech_names : string)
| LogError (i total : nat) (domain : string) (message : string)
| LogQuotaReached (quota : N).

Record ScanState := {
  used : N;
  rows : list (gmap string jsval);
  trace : list event
}.

Definition initial : ScanState := {| used := 0; rows := []; trace := [] |}.

(** [result.name && result.name.toLowerCase() === 'umbraco'], lines
    251-253: [Some b] when the test gives [b], [None] when it throws.
    A falsy name ends the test at [&&]; a truthy name that is not a
    string has no [toLowerCase], and calling it is a [TypeError]. *)
Definition is_umbraco (t : Tech) : option bool :=
  match name t with
  | JString s =>
      Some (negb (String.eqb s "") && String.eqb (toLowerCase s) "umbraco")
  | v => if truthy v then None else Some false
  end.

(** The message of that [TypeError] (in the wording of V8). *)
Definition name_type_error : string :=
  "result.name.toLowerCase is not a function".

(** [techData.results.find(...)]: the entries are tested in order up
    to the first that passes; [None] when a test throws before that,
    else [Some] of what [find] returns. *)
Fixpoint find_umbraco (results : list Tech) : option (option Tech) :=
  match results with
  | [] => Some None
  | result :: rest =>
      match is_umbraco result with
      | None => None
      | Some true => Some (Some result)
      | Some false => find_umbraco rest
      end
  end.

(** Line 281 throws on a technology whose [categories] is truthy and
    not an array: [tech.categories.join] is not a function. *)
Definition categories_throw (tech : Tech) : bool :=
  match categories tech with
  | inl v => truthy v
  | inr _ => false
  end.

Definition categories_type_error : string :=
  "tech.categories.join is not a function".

(** Whether the first slot loop (lines 276-283) throws: it visits the
    first ten technologies. *)
Definition slots_throw (results : list Tech) : bool :=
  existsb categories_throw (take 10 results).

(** The line printed after the search (lines 255-260). *)
Definition verdict (i total : nat) (domain : string) (techData : TechData)
    (umbracoResult : option Tech) : event :=
  match umbracoResult with
  | Some umbracoResult =>
      LogUmbraco i total domain
        (if truthy (version umbracoResult)
         then " v" +:+ js_to_string (version umbracoResult) else "")
  | None =>
      let techNames :=
        join ", " ((λ r, join_item (name r)) <$> results techData) in
      LogNotUmbraco i total domain
        (if String.eqb techNames "" then "unknown" else techNames)
  end.

(** One turn of the loop past the quota check: the body of [try] and
    of [catch]. The [try] is left in four ways: the detection throws,
    before [used++]; the search for Umbraco throws, after [used++];
    the slot loop throws, after the verdict was printed; or the row is
    built and pushed. *)
Definition scan_domain (env : Env) (i total : nat) (domain : string)
    (st : ScanState) : ScanState :=
  match detectCMS (axios_get env i domain) with
  | inr techData =>
      match find_umbraco (results techData) with
      | Some umbracoResult =>
          if slots_throw (results techData) then
            {| used := used st + 1;
               rows := rows st ++ [error_row domain categories_type_error];
               trace := trace st ++
                 [LogScanning i total domain; Request i domain;
                  verdict i total domain techData umbracoResult;
                  LogError i total domain categories_type_error] |}
          else
            {| used := used st + 1;
               rows := rows st ++ [result_row env domain techData];
               trace := trace st ++
                 [LogScanning i total domain; Request i domain;
                  verdict i total domain techData umbracoResult] |}
      | None =>
          {| used := used st + 1;
             rows := rows st ++ [error_row domain name_type_error];
             trace := trace st ++
               [LogScanning i total domain; Request i domain;
                LogError i total domain name_type_error] |}
      end
  | inl message =>
      {| used := used st;
         rows := rows st ++ [error_row domain message];
         trace := trace st ++
           [LogScanning i total domain; Request i domain;
            LogError i total domain message] |}
  end.

Inductive status := Completed | Halted.

(** Lines 240-243: the warning printed before [break]. *)
Definition halt (plan : Plan) (st : ScanState) : ScanState :=
  {| used := used st; rows := rows st;
     trace := trace st ++ [LogQuotaReached (monthlyQuota plan)] |}.

(** The loop from turn [i] on, over the domains [domains[i..]]. *)
Fixpoint scan_loop (env : Env) (plan : Plan) (total i : nat)
    (domains : list string) (st : ScanState) : status * ScanState :=
  match domains with
  | [] => (Completed, st)
  | domain :: rest =>
      if (monthlyQuota plan <=? used st)%N
      then (Halted, halt plan st)
      else scan_loop env plan total (S i) rest (scan_domain env i total domain st)
  end.

Definition scan (env : Env) (plan : Plan) (domains : list string)
  : status * ScanState :=
  scan_loop env plan (length domains) 0 domains initial.

(** The loop when [plan.monthlyQuota] is [undefined]: the comparison
    [used >= undefined] of line 240 is false at every turn. *)
Fixpoint scan_unbounded (env : Env) (total i : nat) (domains : list string)
    (st : ScanState) : ScanState :=
  match domains with
  | [] => st
  | domain :: rest =>
      scan_unbounded env total (S i) rest (scan_domain env i total domain st)
  end.

(** ** The command line (lines 163-176) *)

(** [program.opts()]: [plan], [source], [extension] and [output] have a
    default and are always strings; [limit] is what [parseInt] gave,
    [None] standing for an absent option and for [NaN]. *)
Record Options := {
  opt_plan : string;
  opt_source : string;
  opt_extension : string;
  opt_fetch : bool;
  opt_input : option string;
  opt_domain : option string;
  opt_limit : option Z;
  opt_output : string
}.

(** How commander fills [opts.output] from the [-o] argument. *)
Definition output_option (arg : option string) : string :=
  default "results.csv" arg.

Definition limit_truthy (l : option Z) : bool :=
  match l with
  | Some n => negb (n =? 0)%Z
  | None => false
  end.

(** ** The output namer (lines 121-160) *)

(** [domain.replace(/[^a-zA-Z0-9]/g, '-')], line 127, on the UTF-8
    bytes of the domain. The replacement goes by UTF-16 code units: a
    character outside ASCII is one unit when its encoding has two or
    three bytes, and two units when it has four. *)
Definition sanitize_byte (c : ascii) : string :=
  if (nat_of_ascii c <? 128)%nat then
    if is_alnum c then String c "" else "-"
  else if (nat_of_ascii c <? 192)%nat then ""
  else if (nat_of_ascii c <? 240)%nat then "-"
  else "--".

Fixpoint sanitize (s : string) : string :=
  match s with
  | EmptyString => EmptyString
  | String c rest => sanitize_byte c +:+ sanitize rest
  end.

Definition generateDefaultFilename (env : Env) (opts : Options) : string :=
  let parts := ["cms-scan"] in
  let parts :=
    if str_truthy (opt_domain opts) then
      parts ++ ["single"; sanitize (default "" (opt_domain opts))]
    else
      let parts :=
        if negb (String.eqb (opt_source opts) "")
        then parts ++ [opt_source opts] else parts in
      let parts :=
        if negb (String.eqb (opt_extension opts) "")
        then parts ++ [opt_extension opts] else parts in
      if limit_truthy (opt_limit opts)
      then parts ++ ["limit-" +:+ pretty (default 0%Z (opt_limit opts))]
      else parts in
  join "-" (parts ++ [timestamp (now_default env)]) +:+ ".csv".

(** Lines 142-148: the name before the check of the file system. *)
Definition resolved_filename (env : Env) (opts : Options) : string :=
  let filename := opt_output opts in
  if String.eqb filename "" || String.eqb filename "results.csv"
  then generateDefaultFilename env opts
  else filename.

Definition getOutputFilename (env : Env) (opts : Options) : string :=
  let filename := resolved_filename env opts in
  if existsSync env filename then
    let ext := extname filename in
    let base := basename filename ext in
    base +:+ "-" +:+ timestamp (now_exists env) +:+ ext
  else filename.

(** ** The main program (lines 13-18 and 162-401) *)

Inductive outcome :=
| Exit (code : Z)
| Crash
| Written (path : string) (records : list (gmap string jsval))
    (st : status) (final : ScanState).

(** Lines 222-223: [RegExp(`\\.${extension.replace(/^\./,'')}$`, 'i')]
    tested on a domain, for an extension made of characters that stand
    for themselves in a regular expression (letters, digits, ['-']):
    the domain ends with ['.'] and the extension, letter case aside. *)
Definition tld_test (extension domain : string) : bool :=
  let ext :=
    match extension with
    | String "." rest => rest
    | _ => extension
    end in
  ends_with (list_ascii_of_string (toLowerCase ("." +:+ ext)))
            (list_ascii_of_string (toLowerCase domain)).

(** [domains.slice(0, n)] *)
Definition slice_0 {A} (n : Z) (l : list A) : list A :=
  if (0 <=? n)%Z then take (Z.to_nat n) l
  else take (Z.to_nat (Z.of_nat (length l) + n)) l.

(** Lines 190-213. *)
Definition load_domains (env : Env) (opts : Options) : outcome + list string :=
  if opt_fetch opts then
    if String.eqb (opt_source opts) "majestic" then
      match fetch_majestic env with Some l => inr l | None => inl Crash end
    else if String.eqb (opt_source opts) "tranco" then
      match fetch_tranco env with Some l => inr l | None => inl Crash end
    else inl (Exit 1)
  else if str_truthy (opt_input opts) then
    match read_lines env (default "" (opt_input opts)) with
    | Some lines => inr (filter (λ l, l ≠ "") lines)
    | None => inl Crash
    end
  else if str_truthy (opt_domain opts) then inr [default "" (opt_domain opts)]
  else inl (Exit 1).

(** Lines 220-225. *)
Definition select_domains (opts : Options) (domains : list string) : list string :=
  if str_truthy (opt_domain opts) then domains
  else
    let domains := filter (λ d, tld_test (opt_extension opts) d = true) domains in
    if limit_truthy (opt_limit opts)
    then slice_0 (default 0%Z (opt_limit opts)) domains
    else domains.

(** The names that the object [PLANS] inherits from
    [Object.prototype]. [PLANS[name]] is a function or an object
    there: it is truthy, so the check of line 183 lets it pass, and it
    has neither [monthlyQuota] nor [minTimeMs]. *)
Definition inherited_names : list string :=
  ["constructor"; "toString"; "toLocaleString"; "valueOf"; "hasOwnProperty";
   "isPrototypeOf"; "propertyIsEnumerable"; "__proto__";
   "__defineGetter__"; "__defineSetter__"; "__lookupGetter__";
   "__lookupSetter__"].

Definition inherited_name (id : string) : bool :=
  bool_decide (id ∈ inherited_names).

(** Lines 190-225: the domain sequence that the loop receives, unless
    the process ends first. *)
Definition domains_to_scan (env : Env) (opts : Options) : outcome + list string :=
  match load_domains env opts with
  | inl stop => inl stop
  | inr domains =>
      if (length domains =? 0)%nat then inl (Exit 0)
      else inr (select_domains opts domains)
  end.

(** Lines 190-400 when [opts.plan] is an inherited name: the loop has
    no quota to compare with, and runs to the end of the sequence. *)
Definition run_without_quota (env : Env) (opts : Options) : outcome :=
  match domains_to_scan env opts with
  | inl stop => stop
  | inr domains =>
      let final := scan_unbounded env (length domains) 0 domains initial in
      Written (getOutputFilename env opts) (rows final) Completed final
  end.

(** Lines 13-225: everything before the scan. On the right, the plan of
    the table and the domain sequence that the loop receives; on the
    left, how the process ends when it ends before the scan or when
    the plan is not one of the table. *)
Definition prepare (env : Env) (opts : Options) : outcome + Plan * list string :=
  if negb (str_truthy (api_key env)) then inl (Exit 1)
  else if String.eqb (opt_source opts) "alexa" then inl (Exit 1)
  else
    match PLANS (opt_plan opts) with
    | None =>
        if inherited_name (opt_plan opts) then inl (run_without_quota env opts)
        else inl (Exit 1)
    | Some plan =>
        match domains_to_scan env opts with
        | inl stop => inl stop
        | inr domains => inr (plan, domains)
        end
    end.

Definition main (env : Env) (opts : Options) : outcome :=
  match prepare env opts with
  | inl stop => stop
  | inr (plan, domains) =>
      let '(st, final) := scan env plan domains in
      Written (getOutputFilename env opts) (rows final) st final
  end.

(** Lines 327-397: the [id]s of the columns that the CSV writer reads
    from each record, in order. *)
Definition header_ids : list string :=
  ["domain"; "request"; "last_checked"; "result_code"; "result_msg";
   "results_count"; "results_json"; "meta_social_json"; "error";
   "tech1_name"; "tech1_id"; "tech1_version"; "tech1_categories"; "tech1_url";
   "tech2_name"; "tech2_id"; "tech2_version"; "tech2_categories"; "tech2_url";
   "tech3_name"; "tech3_id"; "tech3_version"; "tech3_categories"; "tech3_url";
   "tech4_name"; "tech4_id"; "tech4_version"; "tech4_categories"; "tech4_url";
   "tech5_name"; "tech5_id"; "tech5_version"; "tech5_categories"; "tech5_url";
   "tech6_name"; "tech6_id"; "tech6_version"; "tech6_categories"; "tech6_url";
   "tech7_name"; "tech7_id"; "tech7_version"; "tech7_categories"; "tech7_url";
   "tech8_name"; "tech8_id"; "tech8_version"; "tech8_categories"; "tech8_url";
   "tech9_name"; "tech9_id"; "tech9_version"; "tech9_categories"; "tech9_url";
   "tech10_name"; "tech10_id"; "tech10_version"; "tech10_categories"; "tech10_url"].

(** ** Reading rows and traces *)





(** The cell that the slot loops write for technology [i]: lines
    277-282 when [results[i]] is there, lines 287-291 when it is not. *)
Definition cell (f : Tech → jsval) (results : list Tech) (i : nat) : jsval :=
  match results !! i with
  | Some tech => f tech
  | None => JString ""
  end.

Definition name_cell (tech : Tech) : jsval := js_or (name_val tech) (JString "").
Definition id_cell (tech : Tech) : jsval := js_or (id tech) (JString "").
Definition version_cell (tech : Tech) : jsval := js_or (version tech) (JString "").
Definition categories_cell (tech : Tech) : jsval := categories_text tech.
Definition url_cell (tech : Tech) : jsval := js_or (url tech) (JString "").

(** Ten slots written in one pass, slot [i + 1] from the cells at [i]. *)
Definition ten_slots (cn cd cv cc cu : nat → jsval) (r : gmap string jsval)
  : gmap string jsval :=
  for_range 0 10 (λ i, set_tech (i + 1) (cn i) (cd i) (cv i) (cc i) (cu i)) r.

(** The domains for which a request was made, in order. *)
Definition requests (tr : list event) : list string :=
  omap (λ e, match e with Request _ d => Some d | _ => None end) tr.

(** Whether the detection made at turn [i] for domain [d] succeeds. *)
Definition succeeds (env : Env) (i : nat) (d : string) : bool :=
  match detectCMS (axios_get env i d) with
  | inr _ => true
  | inl _ => false
  end.

(** The number of requests of a trace whose detection succeeded. *)
Definition successes (env : Env) (tr : list event) : nat :=
  length (List.filter (λ e, match e with
                            | Request i d => succeeds env i d
                            | _ => false
                            end) tr).

(** The row that turn [i] pushes for domain [d]. *)
Definition row_of (env : Env) (i : nat) (d : string) : gmap string jsval :=
  match detectCMS (axios_get env i d) with
  | inr techData =>
      match find_umbraco (results techData) with
      | Some _ =>
          if slots_throw (results techData)
          then error_row d categories_type_error
          else result_row env d techData
      | None => error_row d name_type_error
      end
  | inl message => error_row d message
  end.

(** An extension that the pattern of line 222 takes letter by letter:
    after the dot that line 222 strips, letters, digits and ['-']
    only. *)
Definition literal_extension (extension : string) : bool :=
  forallb (λ c, is_alnum c || Ascii.eqb c "-")
    (list_ascii_of_string
       match extension with
       | String "." rest => rest
       | _ => extension
       end).


(** A path with a directory part, or with a separator at all. *)
Definition has_slash (p : string) : bool :=
  existsb is_slash (list_ascii_of_string p).

(** Two technologies that differ at most in their name. *)
Definition same_but_name (t1 t2 : Tech) : Prop :=
  id t1 = id t2 ∧ version t1 = version t2 ∧
  categories t1 = categories t2 ∧ url t1 = url t2.

(** The columns that hold technology names, and the serialised list. *)
Definition name_columns : list string :=
  "results_json" :: ((λ k, tech_key k "name") <$> seq 1 10).

(** ** Sample runs *)

Definition sample_iso : string := "2024-01-15T10:30:00.000Z".

Definition umbraco_tech : Tech :=
  {| name := JString "Umbraco"; id := JNumber 1234; version := JString "10.0.0";
     categories := inr [JString "CMS"]; url := JString "https://umbraco.com" |}.

Definition wordpress_tech : Tech :=
  {| name := JString "WordPress"; id := JNumber 1234; version := JString "10.0.0";
     categories := inr [JString "CMS"]; url := JString "https://umbraco.com" |}.

Definition sample_payload (techs : list Tech) : Payload :=
  {| data_error := JUndefined; data_msg := JUndefined;
     data_request := JString "https://whatcms.org/API/Tech";
     data_last_checked := JString "2024-01-15 10:30:00";
     data_result := Some {| code := JNumber 200; msg := JString "Success" |};
     data_results := Some techs; data_meta := None |}.

Definition sample_env (answer : nat → string → http_result)
    (lines existing : list string) : Env :=
  {| api_key := Some "key";
     axios_get := answer;
     stringify_results := λ l, "[" +:+ join "," ((λ t, join_item (name t)) <$> l) +:+ "]";
     stringify_social := λ _, "[]";
     fetch_majestic := Some [];
     fetch_tranco := Some [];
     read_lines := λ _, Some lines;
     existsSync := λ f, bool_decide (f ∈ existing);
     now_default := sample_iso;
     now_exists := sample_iso |}.

Definition always_times_out : nat → string → http_result :=
  λ _ _, HttpError "timeout of 15000ms exceeded".

Definition always_umbraco : nat → string → http_result :=
  λ _ _, HttpOk (sample_payload [umbraco_tech]).

(** The second request times out, the others find Umbraco. *)
Definition second_times_out : nat → string → http_result :=
  λ i _, if (i =? 1)%nat then HttpError "timeout of 15000ms exceeded"
         else HttpOk (sample_payload [umbraco_tech]).

(** An entry whose name is the number 5. *)
Definition numbered_tech : Tech :=
  {| name := JNumber 5; id := JNumber 77; version := JUndefined;
     categories := inl JUndefined; url := JUndefined |}.

Definition drupal_tech : Tech :=
  {| name := JString "Drupal"; id := JNumber 1234; version := JString "10.0.0";
     categories := inr [JString "CMS"]; url := JString "https://umbraco.com" |}.

(** The first answer names Umbraco, the second Drupal, both before an
    entry named 5. *)
Definition umbraco_or_drupal : nat → string → http_result :=
  λ i _, if (i =? 0)%nat then HttpOk (sample_payload [umbraco_tech; numbered_tech])
         else HttpOk (sample_payload [drupal_tech; numbered_tech]).

(** The first answer names Umbraco, the others WordPress. *)
Definition umbraco_then_wordpress : nat → string → http_result :=
  λ i _, if (i =? 0)%nat then HttpOk (sample_payload [umbraco_tech])
         else HttpOk (sample_payload [wordpress_tech]).

(** Every answer names WordPress, then Umbraco twice. *)
Definition wordpress_then_umbraco : nat → string → http_result :=
  λ _ _, HttpOk (sample_payload [wordpress_tech; umbraco_tech; umbraco_tech]).

(** An entry whose categories are the string 'CMS', not an array. *)
Definition labelled_tech : Tech :=
  {| name := JString "Umbraco"; id := JNumber 1234; version := JUndefined;
     categories := inl (JString "CMS"); url := JUndefined |}.

Definition always_labelled : nat → string → http_result :=
  λ _ _, HttpOk (sample_payload [wordpress_tech; labelled_tech]).

Definition sample_opts (input domain : option string) (output : string) : Options :=
  {| opt_plan := "free"; opt_source := "tranco"; opt_extension := "nl";
     opt_fetch := false; opt_input := input; opt_domain := domain;
     opt_limit := None; opt_output := output |}.

(** * Properties *)

Example timestamp_ex : timestamp "2024-01-15T10:30:00.000Z" = "2024-01-15T10-30-00".
Proof. reflexivity. Qed.

Example extname_ex :
  extname "out/index.tar.gz" = ".gz" ∧ extname ".bashrc" = "" ∧
  extname "a." = "." ∧ extname ".." = "" ∧ extname "dir.d/file" = "" ∧
  extname "a.csv/" = ".csv" ∧ extname "..a" = ".a".
Proof. repeat split; reflexivity. Qed.

Example basename_ex :
  basename "out/results.csv" ".csv" = "results" ∧
  basename "a.csv/" ".csv" = "a" ∧ basename "dir/abc" "abc" = "abc" ∧
  basename "abc" "abc" = "" ∧ basename "x/sv/" ".csv" = "sv/" ∧
  basename "results" "" = "results".
Proof. repeat split; reflexivity. Qed.

(** ** Counted loops *)

Lemma for_loop_ext {S : Type} (n i : nat) (f g : nat → S → S) (s : S) :
  (∀ j x, i ≤ j < i + n → f j x = g j x) →
  for_loop n i f s = for_loop n i g s.
Proof.
  revert i s. induction n as [|n IH]; intros i s Hfg; simpl; [done|].
  rewrite (Hfg i s) by lia. apply IH. intros j x Hj. apply Hfg. lia.
Qed.

Lemma for_loop_add {S : Type} (a b i : nat) (f : nat → S → S) (s : S) :
  for_loop (a + b) i f s = for_loop b (i + a) f (for_loop a i f s).
Proof.
  revert i s. induction a as [|a IH]; intros i s; simpl.
  - by rewrite Nat.add_0_r.
  - rewrite IH. f_equal. lia.
Qed.

(** The two slot loops together are one pass over the ten slots. *)
Lemma fill_slots_ten (results : list Tech) (r : gmap string jsval) :
  fill_slots results r =
  ten_slots (cell name_cell results) (cell id_cell results)
    (cell version_cell results) (cell categories_cell results)
    (cell url_cell results) r.
Proof.
  assert (Hfill : ∀ j x, j < length results →
    fill_tech results j x =
    set_tech (j + 1) (cell name_cell results j) (cell id_cell results j)
      (cell version_cell results j) (cell categories_cell results j)
      (cell url_cell results j) x).
  { intros j x Hj. unfold fill_tech, cell.
    by destruct (lookup_lt_is_Some_2 results j Hj) as [t ->]. }
  assert (Hclear : ∀ j x, length results ≤ j →
    clear_tech j x =
    set_tech (j + 1) (cell name_cell results j) (cell id_cell results j)
      (cell version_cell results j) (cell categories_cell results j)
      (cell url_cell results j) x).
  { intros j x Hj. unfold clear_tech, cell.
    by rewrite (lookup_ge_None_2 results j Hj). }
  unfold fill_slots, ten_slots, for_range.
  destruct (decide (length results ≤ 10)) as [Hle|Hgt].
  - rewrite Nat.min_l by done. rewrite !Nat.sub_0_r.
    replace 10 with (length results + (10 - length results)) at 2 by lia.
    rewrite for_loop_add. simpl.
    rewrite (for_loop_ext (length results) 0 (fill_tech results) _ r
               (λ j x Hj, Hfill j x (proj2 Hj))).
    apply for_loop_ext. intros j x Hj. apply Hclear. lia.
  - rewrite Nat.min_r by lia.
    replace (10 - length results) with 0 by lia.
    change (for_loop (10 - 0) 0 (fill_tech results) r = 
      for_loop (10 - 0) 0 (λ i, set_tech (i + 1) (cell name_cell results i)
        (cell id_cell results i) (cell version_cell results i)
        (cell categories_cell results i) (cell url_cell results i)) r).
    apply for_loop_ext. intros j x Hj. apply Hfill. lia.
Qed.

Lemma result_row_ten (env : Env) (domain : string) (td : TechData) :
  result_row env domain td =
  ten_slots (cell name_cell (results td)) (cell id_cell (results td))
    (cell version_cell (results td)) (cell categories_cell (results td))
    (cell url_cell (results td))
    (base_row (JString domain) (request td) (last_checked td) (result_code td)
       (result_msg td) (JNumber (Z.of_nat (length (results td))))
       (JString (stringify_results env (results td)))
       (JString (stringify_social env (meta_social td))) (error td)).
Proof. unfold result_row. by rewrite fill_slots_ten. Qed.

Lemma error_row_ten (domain message : string) :
  error_row domain message =
  ten_slots (λ _, JString "") (λ _, JString "") (λ _, JString "")
    (λ _, JString "") (λ _, JString "")
    (base_row (JString domain) (JString "") (JString "") (JString "")
       (JString "") (JNumber 0) (JString "") (JString "") (JString message)).
Proof. reflexivity. Qed.

Section ten_slots.
Context (cn cd cv cc cu : nat → jsval).
Context (domain request last_checked result_code result_msg
         results_count results_json meta_social_json error : jsval).

Local Abbreviation row :=
  (ten_slots cn cd cv cc cu
     (base_row domain request last_checked result_code result_msg
        results_count results_json meta_social_json error)).


Lemma ten_slots_dom : dom row = list_to_set header_ids.
Proof. apply (bool_decide_unpack _). vm_compute. exact I. Qed.

Lemma ten_slots_base :
  row !! "domain" = Some domain ∧ row !! "request" = Some request ∧
  row !! "last_checked" = Some last_checked ∧
  row !! "result_code" = Some result_code ∧
  row !! "result_msg" = Some result_msg ∧
  row !! "results_count" = Some results_count ∧
  row !! "results_json" = Some results_json ∧
  row !! "meta_social_json" = Some meta_social_json ∧
  row !! "error" = Some error.
Proof. repeat split; vm_compute; reflexivity. Qed.
End ten_slots.

Example scan_two_domains :
  scan (sample_env always_umbraco [] []) {| monthlyQuota := 500; minTimeMs := 15000 |}
    ["a.com"; "b.com"]
  = (Completed,
     {| used := 2;
        rows := [row_of (sample_env always_umbraco [] []) 0 "a.com";
                 row_of (sample_env always_umbraco [] []) 1 "b.com"];
        trace := [LogScanning 0 2 "a.com"; Request 0 "a.com";
                  LogUmbraco 0 2 "a.com" " v10.0.0";
                  LogScanning 1 2 "b.com"; Request 1 "b.com";
                  LogUmbraco 1 2 "b.com" " v10.0.0"] |}).
Proof. reflexivity. Qed.

Example scan_quota_of_one :
  let env := sample_env always_umbraco [] [] in
  scan env {| monthlyQuota := 1; minTimeMs := 0 |} ["a.com"; "b.com"; "c.com"]
  = (Halted,
     {| used := 1; rows := [row_of env 0 "a.com"];
        trace := [LogScanning 0 3 "a.com"; Request 0 "a.com";
                  LogUmbraco 0 3 "a.com" " v10.0.0"; LogQuotaReached 1] |}).
Proof. reflexivity. Qed.

Example is_umbraco_case :
  is_umbraco {| name := JString "UMBRACO"; id := JUndefined; version := JUndefined;
                categories := inl JUndefined; url := JUndefined |} = Some true ∧
  is_umbraco umbraco_tech = Some true ∧
  is_umbraco {| name := JString "Umbracoo"; id := JUndefined; version := JUndefined;
                categories := inl JUndefined; url := JUndefined |} = Some false ∧
  is_umbraco numbered_tech = None.
Proof. repeat split; reflexivity. Qed.

(** ** The technology slots of a row *)









(** ** One turn of the scan loop *)

(** The four ways through a turn. *)
Ltac turn_cases :=
  match goal with
  | |- context [detectCMS ?r] => destruct (detectCMS r) as [?m|?td] eqn:?Hdet
  end;
  [|match goal with
    | |- context [find_umbraco ?l] =>
        destruct (find_umbraco l) as [?found|] eqn:?Hfind
    end;
    [match goal with
     | |- context [slots_throw ?l] => destruct (slots_throw l) eqn:?Hslots
     end|]].

Section scan.
Context (env : Env) (plan : Plan) (total : nat).

Lemma scan_domain_rows (i : nat) (d : string) (st : ScanState) :
  rows (scan_domain env i total d st) = rows st ++ [row_of env i d].
Proof.
  unfold scan_domain, row_of. turn_cases; done.
Qed.

Lemma scan_domain_used (i : nat) (d : string) (st : ScanState) :
  used (scan_domain env i total d st) =
  (used st + if succeeds env i d then 1 else 0)%N.
Proof.
  unfold scan_domain, succeeds. turn_cases; cbn [used]; lia.
Qed.

Lemma requests_app (tr1 tr2 : list event) :
  requests (tr1 ++ tr2) = requests tr1 ++ requests tr2.
Proof. apply omap_app. Qed.

Lemma successes_app (tr1 tr2 : list event) :
  successes env (tr1 ++ tr2) = successes env tr1 + successes env tr2.
Proof. unfold successes. by rewrite List.filter_app, length_app. Qed.

Lemma scan_domain_requests (i : nat) (d : string) (st : ScanState) :
  requests (trace (scan_domain env i total d st)) = requests (trace st) ++ [d].
Proof.
  unfold scan_domain.
  turn_cases; cbn [trace]; rewrite requests_app; try done.
  - by destruct found.
  - by destruct found.
Qed.

Lemma scan_domain_successes (i : nat) (d : string) (st : ScanState) :
  successes env (trace (scan_domain env i total d st)) =
  successes env (trace st) + if succeeds env i d then 1 else 0.
Proof.
  unfold scan_domain.
  destruct (detectCMS (axios_get env i d)) as [m|td] eqn:Hd;
    [|destruct (find_umbraco (results td)) as [[u|]|];
      [destruct (slots_throw (results td))..|]];
    cbn [trace]; rewrite successes_app; f_equal;
    unfold successes, succeeds; cbn [List.filter verdict]; by rewrite Hd.
Qed.

(** ** The loop *)

Lemma scan_loop_nil (i : nat) (st : ScanState) :
  scan_loop env plan total i [] st = (Completed, st).
Proof. reflexivity. Qed.

Lemma scan_loop_halt (i : nat) (d : string) (rest : list string) (st : ScanState) :
  (monthlyQuota plan ≤ used st)%N →
  scan_loop env plan total i (d :: rest) st = (Halted, halt plan st).
Proof. intros H. simpl. by rewrite (proj2 (N.leb_le _ _) H). Qed.

Lemma scan_loop_step (i : nat) (d : string) (rest : list string) (st : ScanState) :
  (used st < monthlyQuota plan)%N →
  scan_loop env plan total i (d :: rest) st =
  scan_loop env plan total (S i) rest (scan_domain env i total d st).
Proof. intros H. simpl. by rewrite (proj2 (N.leb_gt _ _) H). Qed.

(** A property kept by every turn and by the halt holds when the loop
    is left. *)
Lemma scan_loop_keeps (P : ScanState → Prop) :
  (∀ i d st, (used st < monthlyQuota plan)%N → P st →
             P (scan_domain env i total d st)) →
  (∀ st, P st → P (halt plan st)) →
  ∀ domains i st, P st → P (scan_loop env plan total i domains st).2.
Proof.
  intros Hturn Hhalt domains.
  induction domains as [|d rest IH]; intros i st HP; [done|].
  destruct (N.le_gt_cases (monthlyQuota plan) (used st)) as [Hq|Hq].
  - rewrite scan_loop_halt by done. by apply Hhalt.
  - rewrite scan_loop_step by done. apply IH. by apply Hturn.
Qed.

Lemma scan_loop_quota (domains : list string) (i : nat) (st : ScanState) :
  (used st ≤ monthlyQuota plan)%N →
  (used (scan_loop env plan total i domains st).2 ≤ monthlyQuota plan)%N.
Proof.
  apply (scan_loop_keeps (λ s, (used s ≤ monthlyQuota plan)%N)).
  - intros j d s Hlt _. rewrite scan_domain_used.
    destruct (succeeds env j d); lia.
  - done.
Qed.

Lemma scan_loop_successes (domains : list string) (i : nat) (st : ScanState) :
  used st = N.of_nat (successes env (trace st)) →
  let fin := (scan_loop env plan total i domains st).2 in
  used fin = N.of_nat (successes env (trace fin)).
Proof.
  apply (scan_loop_keeps (λ s, used s = N.of_nat (successes env (trace s)))).
  - intros j d s _ Hs. rewrite scan_domain_used, scan_domain_successes, Hs.
    destruct (succeeds env j d); lia.
  - intros s Hs. simpl. rewrite successes_app, Hs.
    unfold successes at 3. simpl. lia.
Qed.

(** The loop runs some number [k] of turns, one per domain of
    [domains[i .. i+k-1]], and pushes the row of each in order. *)
Lemma scan_loop_turns (domains : list string) (i : nat) (st : ScanState) :
  ∃ k, k ≤ length domains ∧
    rows (scan_loop env plan total i domains st).2 =
      rows st ++ imap (λ j d, row_of env (i + j) d) (take k domains) ∧
    requests (trace (scan_loop env plan total i domains st).2) =
      requests (trace st) ++ take k domains ∧
    ((scan_loop env plan total i domains st).1 = Completed → k = length domains) ∧
    ((scan_loop env plan total i domains st).1 = Halted →
       k < length domains ∧
       (monthlyQuota plan ≤ used (scan_loop env plan total i domains st).2)%N).
Proof.
  revert i st. induction domains as [|d rest IH]; intros i st.
  - exists 0. simpl. rewrite !app_nil_r. by repeat split.
  - destruct (N.le_gt_cases (monthlyQuota plan) (used st)) as [Hq|Hq].
    + rewrite scan_loop_halt by done. exists 0. simpl.
      rewrite requests_app, !app_nil_r. repeat split; [lia|done|lia|done].
    + rewrite scan_loop_step by done.
      destruct (IH (S i) (scan_domain env i total d st))
        as (k & Hk & Hrows & Hreq & Hc & Hh).
      exists (S k). simpl. repeat split.
      * lia.
      * rewrite Hrows, scan_domain_rows, <- app_assoc. simpl.
        rewrite Nat.add_0_r. do 2 f_equal.
        apply imap_ext. intros j x _. simpl. f_equal. lia.
      * by rewrite Hreq, scan_domain_requests, <- app_assoc.
      * intros H. by rewrite Hc.
      * apply Hh in H. lia.
      * by apply Hh.
Qed.

(** Running the loop over a sequence cut in two. *)
Lemma scan_loop_app (ds1 ds2 : list string) (i : nat) (st : ScanState) :
  scan_loop env plan total i (ds1 ++ ds2) st =
  match scan_loop env plan total i ds1 st with
  | (Completed, st1) => scan_loop env plan total (i + length ds1) ds2 st1
  | (Halted, st1) => (Halted, st1)
  end.
Proof.
  revert i st. induction ds1 as [|d rest IH]; intros i st.
  - simpl. by rewrite Nat.add_0_r.
  - destruct (N.le_gt_cases (monthlyQuota plan) (used st)) as [Hq|Hq].
    + simpl app. by rewrite !scan_loop_halt.
    + simpl app. rewrite !scan_loop_step by done. rewrite IH.
      simpl length. by replace (S i + length rest) with (i + S (length rest)) by lia.
Qed.

End scan.

(** ** Rows of the run *)


Lemma row_of_domain (env : Env) (i : nat) (d : string) :
  row_of env i d !! "domain" = Some (JString d).
Proof.
  unfold row_of. turn_cases;
    rewrite ?error_row_ten, ?result_row_ten; apply ten_slots_base.
Qed.

Lemma main_written (env : Env) (opts : Options) (plan : Plan) (domains : list string) :
  prepare env opts = inr (plan, domains) →
  main env opts =
  Written (getOutputFilename env opts) (rows (scan env plan domains).2)
    (scan env plan domains).1 (scan env plan domains).2.
Proof.
  intros H. unfold main. rewrite H. by destruct (scan env plan domains).
Qed.

Ltac header_cases H :=
  unfold header_ids in H;
  repeat (apply elem_of_cons in H as [->|H]);
  [..|by apply elem_of_nil in H].


Lemma successes_le_requests (env : Env) (tr : list event) :
  successes env tr ≤ length (requests tr).
Proof.
  unfold successes, requests.
  induction tr as [|e tr IH]; simpl; [done|].
  destruct e as [? ? ?|i d|? ? ? ?|? ? ? ?|? ? ? ?|?]; simpl; try exact IH.
  destruct (succeeds env i d); simpl; [apply le_n_S|apply le_S]; exact IH.
Qed.

(** ** The quota *)

(** C1. In a run that reaches the scan, after any number [k] of turns
    the counter [used] is at most the plan's monthly quota; the rows
    pushed by then are a prefix of the rows of the final output, and the
    process writes them instead of exiting or failing; and when the
    counter has reached the quota while a domain is still to come, the
    loop is left at once: the run is Halted, no further request is made
    and the rows and the counter stay as they were. *)
Theorem quota_never_exceeded (env : Env) (opts : Options) (plan : Plan)
    (domains : list string) (k : nat) :
  prepare env opts = inr (plan, domains) →
  let pre := (scan_loop env plan (length domains) 0 (take k domains) initial).2 in
  let st := (scan env plan domains).1 in
  let fin := (scan env plan domains).2 in
  (used pre ≤ monthlyQuota plan)%N ∧
  rows pre `prefix_of` rows fin ∧
  main env opts = Written (getOutputFilename env opts) (rows fin) st fin ∧
  (k < length domains → (monthlyQuota plan ≤ used pre)%N →
     st = Halted ∧ rows fin = rows pre ∧
     requests (trace fin) = requests (trace pre) ∧ used fin = used pre).
Proof.
  intros Hprep pre st fin.
  split; [apply scan_loop_quota; simpl; lia|].
  split; [|split; [by apply main_written|]].
  all: pose proof (scan_loop_app env plan (length domains) (take k domains)
                     (drop k domains) 0 initial) as Hsplit;
    rewrite take_drop in Hsplit;
    change (scan_loop env plan (length domains) 0 domains initial)
      with (scan env plan domains) in Hsplit;
    subst pre st fin; rewrite Hsplit; clear Hsplit;
    destruct (scan_loop env plan (length domains) 0 (take k domains) initial)
      as [[] st1]; simpl; try done.
  - destruct (scan_loop_turns env plan (length domains) (drop k domains)
                (length (take k domains)) st1) as (n & _ & -> & _).
    by apply prefix_app_r.
  - intros Hk Hq.
    destruct (drop k domains) as [|d rest] eqn:Hdrop.
    { apply (f_equal length) in Hdrop. rewrite length_drop in Hdrop.
      simpl in Hdrop. lia. }
    rewrite scan_loop_halt by done. simpl.
    rewrite requests_app. simpl. by rewrite app_nil_r.
Qed.

Lemma quota_never_exceeded_witness :
  let env := sample_env always_umbraco ["a.nl"; "example.com"; "B.NL"] [] in
  let opts := sample_opts (Some "domains.txt") None "results.csv" in
  let plan := {| monthlyQuota := 500; minTimeMs := 15000 |} in
  prepare env opts = inr (plan, ["a.nl"; "B.NL"]) ∧
  (used (scan_loop env plan 2 0 (take 1 ["a.nl"; "B.NL"]) initial).2 ≤ 500)%N.
Proof.
  split; [reflexivity|].
  apply (quota_never_exceeded
           (sample_env always_umbraco ["a.nl"; "example.com"; "B.NL"] [])
           (sample_opts (Some "domains.txt") None "results.csv")
           {| monthlyQuota := 500; minTimeMs := 15000 |} ["a.nl"; "B.NL"] 1).
  reflexivity.
Defined.



(** ** One row per domain *)

(** C5. In a run that reaches the scan, the records written are the
    rows of the first [k] domains of the input sequence, one row each
    and in the same order, where [k] is the number of domains for which
    a request was made before the halt or the completion; the row of a
    domain is its result row when the detection succeeded and its error
    row when it failed, and its [domain] field is that domain. A
    completed run covers the whole sequence. *)
Theorem one_row_per_domain (env : Env) (opts : Options) (plan : Plan)
    (domains : list string) :
  prepare env opts = inr (plan, domains) →
  ∃ k st fin,
    main env opts = Written (getOutputFilename env opts) (rows fin) st fin ∧
    k ≤ length domains ∧
    requests (trace fin) = take k domains ∧
    rows fin = imap (row_of env) (take k domains) ∧
    length (rows fin) = k ∧
    (λ row : gmap string jsval, row !! "domain") <$> rows fin =
      (λ d, Some (JString d)) <$> take k domains ∧
    (st = Completed → k = length domains).
Proof.
  intros Hprep.
  destruct (scan_loop_turns env plan (length domains) domains 0 initial)
    as (k & Hk & Hrows & Hreq & Hc & _).
  change (scan_loop env plan (length domains) 0 domains initial)
    with (scan env plan domains) in *.
  simpl in Hrows, Hreq.
  exists k, (scan env plan domains).1, (scan env plan domains).2.
  split; [by apply main_written|]. split; [done|]. split; [done|].
  split; [done|]. split; [|split; [|done]].
  - rewrite Hrows, length_imap, length_take. lia.
  - rewrite Hrows. clear.
    assert (H : ∀ l i, (λ row : gmap string jsval, row !! "domain") <$>
                imap (λ j d, row_of env (i + j) d) l =
                (λ d, Some (JString d)) <$> l).
    { clear. induction l as [|d l IH]; intros i; [done|].
      rewrite imap_cons, !fmap_cons, row_of_domain. f_equal.
      rewrite <- (IH (S i)). f_equal.
      apply imap_ext. intros j x _. simpl. f_equal. lia. }
    apply (H _ 0).
Qed.

Lemma one_row_per_domain_witness :
  let env := sample_env second_times_out ["a.nl"; "example.com"; "B.NL"; "c.nl"] [] in
  let opts := sample_opts (Some "domains.txt") None "results.csv" in
  prepare env opts =
    inr ({| monthlyQuota := 500; minTimeMs := 15000 |}, ["a.nl"; "B.NL"; "c.nl"]) ∧
  ∃ k st fin,
    main env opts = Written (getOutputFilename env opts) (rows fin) st fin ∧
    k ≤ 3 ∧ requests (trace fin) = take k ["a.nl"; "B.NL"; "c.nl"].
Proof.
  split; [reflexivity|].
  destruct (one_row_per_domain
              (sample_env second_times_out ["a.nl"; "example.com"; "B.NL"; "c.nl"] [])
              (sample_opts (Some "domains.txt") None "results.csv")
              {| monthlyQuota := 500; minTimeMs := 15000 |}
              ["a.nl"; "B.NL"; "c.nl"] eq_refl)
    as (k & st & fin & Hmain & Hk & Hreq & _).
  exists k, st, fin. repeat split; assumption.
Defined.

(** ** Failures of single domains *)

Section turns.
Context (env : Env) (plan : Plan) (domains : list string).

Local Abbreviation after k :=
  (scan_loop env plan (length domains) 0 (take k domains) initial).


End turns.



(** ** Paths *)

Lemma list_of_string_app (a b : string) :
  list_ascii_of_string (a +:+ b) = list_ascii_of_string a ++ list_ascii_of_string b.
Proof. induction a as [|c a IH]; simpl; [done|]. by rewrite <- IH. Qed.

Lemma string_of_list_app (a b : list ascii) :
  string_of_list_ascii (a ++ b) = string_of_list_ascii a +:+ string_of_list_ascii b.
Proof. induction a as [|c a IH]; simpl; [done|]. by rewrite IH. Qed.

Lemma take_while_all {A} (p : A → bool) (l : list A) :
  forallb p l = true → take_while p l = l.
Proof.
  induction l as [|x l IH]; simpl; [done|].
  intros [Hx Hl]%andb_prop. rewrite Hx. by rewrite IH.
Qed.

Lemma drop_while_none {A} (p : A → bool) (l : list A) :
  existsb p l = false → drop_while p l = l.
Proof.
  destruct l as [|x l]; simpl; [done|].
  intros [Hx Hl]%orb_false_elim. by rewrite Hx.
Qed.

Lemma last_part_plain (p : list ascii) :
  existsb is_slash p = false → last_part p = p.
Proof.
  intros H. unfold last_part.
  assert (Hrev : existsb is_slash (rev p) = false).
  { apply not_true_is_false. intros (c & Hin & Hc)%existsb_exists.
    apply in_rev in Hin.
    assert (existsb is_slash p = true) by (apply existsb_exists; eauto).
    congruence. }
  rewrite drop_while_none by done.
  rewrite take_while_all; [apply rev_involutive|].
  apply forallb_forall. intros c Hin. apply negb_true_iff.
  apply not_true_is_false. intros Hc.
  assert (existsb is_slash (rev p) = true) by (apply existsb_exists; eauto).
  congruence.
Qed.

Lemma from_last_dot_suffix (c e : list ascii) :
  from_last_dot c = Some e → e ≠ [] ∧ ∃ pre, c = pre ++ e.
Proof.
  revert e. induction c as [|a r IH]; intros e; simpl; [done|].
  destruct (from_last_dot r) as [e'|].
  - intros [= <-]. destruct (IH e' eq_refl) as (Hne & pre & ->).
    split; [done|]. by exists (a :: pre).
  - destruct (is_dot a); [|done]. intros [= <-]. split; [done|]. by exists [].
Qed.

Lemma ends_with_app (pre e : list ascii) : ends_with e (pre ++ e) = true.
Proof.
  unfold ends_with. rewrite length_app.
  apply andb_true_intro. split; [apply Nat.leb_le; lia|].
  apply bool_decide_eq_true.
  replace (length pre + length e - length e) with (length pre) by lia.
  by rewrite drop_app_length.
Qed.

Lemma basename_chars_nil (p : list ascii) : basename_chars p [] = last_part p.
Proof. unfold basename_chars. by rewrite bool_decide_eq_true_2. Qed.

(** A plain file name is its base name followed by its extension. *)
Lemma basename_extname_chars (p : list ascii) :
  existsb is_slash p = false →
  basename_chars p (extname_chars p) ++ extname_chars p = p.
Proof.
  intros Hp. unfold extname_chars. rewrite last_part_plain by done.
  assert (Hnil : basename_chars p [] ++ [] = p).
  { by rewrite basename_chars_nil, app_nil_r, last_part_plain. }
  destruct (from_last_dot p) as [e|] eqn:He; [|done].
  destruct (length e =? length p) eqn:Hlen; [done|].
  case_bool_decide; [done|]. clear Hnil.
  destruct (from_last_dot_suffix p e He) as (Hne & pre & ->).
  apply Nat.eqb_neq in Hlen. rewrite length_app in Hlen.
  unfold basename_chars. rewrite last_part_plain by done.
  rewrite bool_decide_eq_false_2 by done. rewrite length_app. simpl.
  rewrite (proj2 (Nat.ltb_ge _ _)) by lia.
  rewrite bool_decide_eq_false_2.
  2:{ intros Heq. apply (f_equal length) in Heq. rewrite length_app in Heq. lia. }
  rewrite ends_with_app. rewrite (proj2 (Nat.ltb_lt _ _)) by lia. simpl.
  replace (length pre + length e - length e) with (length pre) by lia.
  by rewrite take_app_length.
Qed.

Lemma basename_extname (p : string) :
  has_slash p = false → basename p (extname p) +:+ extname p = p.
Proof.
  intros Hp. unfold basename, extname.
  rewrite list_ascii_of_string_of_list_ascii, <- string_of_list_app.
  rewrite basename_extname_chars by done.
  apply string_of_list_ascii_of_string.
Qed.

Lemma string_length_app (a b : string) :
  String.length (a +:+ b) = String.length a + String.length b.
Proof. induction a as [|c a IH]; simpl; [done|]. by rewrite IH. Qed.

(** ** The output namer *)

(** C8, as the code has it. An explicit output path that is neither
    empty nor ['results.csv'], the option's own default, and at which
    no file exists is returned unchanged. *)
Theorem explicit_output_verbatim (env : Env) (opts : Options) (arg : string) :
  opt_output opts = output_option (Some arg) →
  arg ≠ "" → arg ≠ "results.csv" →
  existsSync env arg = false →
  getOutputFilename env opts = arg.
Proof.
  intros Hout Hne Hdef Hex. simpl in Hout.
  unfold getOutputFilename, resolved_filename. rewrite Hout.
  destruct (String.eqb_spec arg ""); [done|].
  destruct (String.eqb_spec arg "results.csv"); [done|].
  simpl. by rewrite Hex.
Qed.

Lemma explicit_output_verbatim_witness :
  let env := sample_env always_umbraco [] [] in
  let opts := sample_opts None (Some "umbraco.com")
                (output_option (Some "umbraco-scan.csv")) in
  existsSync env "umbraco-scan.csv" = false ∧
  getOutputFilename env opts = "umbraco-scan.csv".
Proof.
  split; [reflexivity|].
  apply (explicit_output_verbatim (sample_env always_umbraco [] [])
           (sample_opts None (Some "umbraco.com")
              (output_option (Some "umbraco-scan.csv")))
           "umbraco-scan.csv"); [reflexivity|discriminate|discriminate|reflexivity].
Defined.

(** C8 as stated fails: [-o results.csv] is an explicit path, no file
    is there, and the namer returns a generated name instead. *)
Lemma explicit_results_csv_renamed :
  let env := sample_env always_umbraco [] [] in
  let opts := sample_opts None (Some "umbraco.com")
                (output_option (Some "results.csv")) in
  existsSync env "results.csv" = false ∧
  getOutputFilename env opts = "cms-scan-single-umbraco-com-2024-01-15T10-30-00.csv" ∧
  getOutputFilename env opts ≠ "results.csv".
Proof. repeat split. discriminate. Qed.

(** C9, as the code has it. When a file exists at the resolved path
    and that path has no directory part, the namer returns the path
    with ['-'] and the timestamp of the moment put in before its
    extension; the returned name differs from the existing path. The
    namer does not look whether a file of the returned name exists. *)
Theorem existing_file_gets_timestamp (env : Env) (opts : Options) :
  let filename := resolved_filename env opts in
  existsSync env filename = true →
  has_slash filename = false →
  ∃ base,
    filename = base +:+ extname filename ∧
    getOutputFilename env opts =
      base +:+ "-" +:+ timestamp (now_exists env) +:+ extname filename ∧
    getOutputFilename env opts ≠ filename.
Proof.
  intros filename Hex Hplain.
  exists (basename filename (extname filename)).
  assert (Hout : getOutputFilename env opts =
    basename filename (extname filename) +:+ "-" +:+
    timestamp (now_exists env) +:+ extname filename).
  { unfold getOutputFilename. fold filename. by rewrite Hex. }
  pose proof (basename_extname filename Hplain) as Hparts.
  split; [done|]. split; [done|].
  rewrite Hout. clear Hout. clearbody filename.
  revert Hparts.
  generalize (basename filename (extname filename)). intros b.
  generalize (extname filename). intros e Hparts Heq.
  rewrite <- Hparts in Heq.
  apply (f_equal String.length) in Heq.
  rewrite !string_length_app in Heq. simpl in Heq. lia.
Qed.

Lemma existing_file_gets_timestamp_witness :
  let env := sample_env always_umbraco [] ["out.csv"] in
  let opts := sample_opts None (Some "umbraco.com") "out.csv" in
  existsSync env (resolved_filename env opts) = true ∧
  has_slash (resolved_filename env opts) = false ∧
  ∃ base,
    "out.csv" = base +:+ ".csv" ∧
    getOutputFilename env opts = base +:+ "-2024-01-15T10-30-00.csv" ∧
    getOutputFilename env opts ≠ "out.csv".
Proof.
  split; [reflexivity|]. split; [reflexivity|].
  apply (existing_file_gets_timestamp
           (sample_env always_umbraco [] ["out.csv"])
           (sample_opts None (Some "umbraco.com") "out.csv") eq_refl eq_refl).
Defined.

(** C9 as stated fails: the name with the timestamp can be the name of
    a file that is already there, and it is returned all the same. *)
Lemma timestamped_name_may_exist :
  let env := sample_env always_umbraco []
               ["out.csv"; "out-2024-01-15T10-30-00.csv"] in
  let opts := sample_opts None (Some "umbraco.com") "out.csv" in
  existsSync env (resolved_filename env opts) = true ∧
  getOutputFilename env opts = "out-2024-01-15T10-30-00.csv" ∧
  existsSync env (getOutputFilename env opts) = true.
Proof. repeat split. Qed.

(** With a directory part the returned name is the timestamped base
    name alone. *)
Example existing_file_in_directory :
  let env := sample_env always_umbraco [] ["scans/out.csv"] in
  let opts := sample_opts None (Some "umbraco.com") "scans/out.csv" in
  getOutputFilename env opts = "out-2024-01-15T10-30-00.csv".
Proof. reflexivity. Qed.

(** ** Empty domain sequences *)

(** The check of line 215 ends the process when nothing was loaded. *)
Lemma nothing_loaded_exits (env : Env) (opts : Options) (plan : Plan) :
  str_truthy (api_key env) = true →
  String.eqb (opt_source opts) "alexa" = false →
  PLANS (opt_plan opts) = Some plan →
  load_domains env opts = inr [] →
  main env opts = Exit 0.
Proof.
  intros Hkey Hsrc Hplan Hload. unfold main, prepare, domains_to_scan.
  by rewrite Hkey, Hsrc, Hplan, Hload.
Qed.

(** A sequence that the filter or the limit empties goes through the
    loop and the writer. *)
Lemma nothing_selected_writes (env : Env) (opts : Options) (plan : Plan) :
  prepare env opts = inr (plan, []) →
  main env opts = Written (getOutputFilename env opts) [] Completed initial.
Proof. intros H. by rewrite (main_written env opts plan []). Qed.

(** C3 fails on the code. With a domain file that holds no [.nl]
    domain, the sequence is empty after the filter; the process does
    not stop at line 217 but writes an output file without records. *)
Theorem empty_after_filter_still_writes :
  let env := sample_env always_umbraco ["example.com"; "example.org"] [] in
  let opts := sample_opts (Some "domains.txt") None "results.csv" in
  load_domains env opts = inr ["example.com"; "example.org"] ∧
  select_domains opts ["example.com"; "example.org"] = [] ∧
  main env opts =
    Written "cms-scan-tranco-nl-2024-01-15T10-30-00.csv" [] Completed initial.
Proof. repeat split. Qed.

(** ** The verdict on Umbraco *)

Lemma cell_agree (f : Tech → jsval) (rs1 rs2 : list Tech) :
  (∀ t1 t2, same_but_name t1 t2 → f t1 = f t2) →
  Forall2 same_but_name rs1 rs2 →
  ∀ i, cell f rs1 i = cell f rs2 i.
Proof.
  intros Hf Hrs. induction Hrs as [|t1 t2 rs1 rs2 Ht _ IH]; intros i; [done|].
  destruct i as [|i]; [apply Hf, Ht|apply IH].
Qed.

Section agree.
Context (cn cn' cd cd' cv cv' cc cc' cu cu' : nat → jsval).
Context (Hd : ∀ i, cd i = cd' i) (Hv : ∀ i, cv i = cv' i).
Context (Hc : ∀ i, cc i = cc' i) (Hu : ∀ i, cu i = cu' i).
Context (domain request last_checked result_code result_msg
         results_count results_json results_json' meta_social_json
         error : jsval).

(** Rows written from cells that agree outside the names agree
    outside the name columns. *)
Lemma ten_slots_agree (key : string) :
  key ∈ header_ids → key ∉ name_columns →
  ten_slots cn cd cv cc cu
    (base_row domain request last_checked result_code result_msg
       results_count results_json meta_social_json error) !! key =
  ten_slots cn' cd' cv' cc' cu'
    (base_row domain request last_checked result_code result_msg
       results_count results_json' meta_social_json error) !! key.
Proof.
  intros Hkey Hnot. header_cases Hkey;
    first [ by vm_compute
          | vm_compute; f_equal; first [apply Hd|apply Hv|apply Hc|apply Hu]
          | exfalso; apply Hnot; apply (bool_decide_unpack _); by vm_compute ].
Qed.
End agree.

Lemma slots_throw_agree (rs1 rs2 : list Tech) :
  Forall2 same_but_name rs1 rs2 → slots_throw rs1 = slots_throw rs2.
Proof.
  intros Hrs. unfold slots_throw.
  apply (Forall2_take _ _ _ 10) in Hrs.
  induction Hrs as [|t1 t2 l1 l2 (_ & _ & Hc & _) _ IH]; [done|].
  cbn [existsb]. unfold categories_throw at 1 3. by rewrite Hc, IH.
Qed.

(** C10, as the code has it. After a successful detection on which
    neither the search for a technology named ['umbraco'] throws (every
    name that it tests is a string or falsy) nor the slot loop (the
    categories of the first ten technologies are arrays or falsy), the
    turn pushes the result row of the domain and the detection result
    and counts the request; what the search finds decides only the
    line that is printed. Two such detection results that differ at
    most in the names of their technologies, whether one of them
    matches or not, give rows that are equal in every column but the
    name columns and the serialised technology list. *)
Theorem verdict_only_logged (env : Env) (i i' total : nat) (domain : string)
    (st : ScanState) (td td' : TechData) (found found' : option Tech) :
  detectCMS (axios_get env i domain) = inr td →
  detectCMS (axios_get env i' domain) = inr td' →
  find_umbraco (results td) = Some found →
  find_umbraco (results td') = Some found' →
  slots_throw (results td) = false →
  request td' = request td → last_checked td' = last_checked td →
  result_code td' = result_code td → result_msg td' = result_msg td →
  meta_social td' = meta_social td → error td' = error td →
  Forall2 same_but_name (results td) (results td') →
  let st1 := scan_domain env i total domain st in
  let st2 := scan_domain env i' total domain st in
  rows st1 = rows st ++ [result_row env domain td] ∧
  rows st2 = rows st ++ [result_row env domain td'] ∧
  used st1 = (used st + 1)%N ∧ used st2 = (used st + 1)%N ∧
  trace st1 = trace st ++ [LogScanning i total domain; Request i domain;
                           verdict i total domain td found] ∧
  trace st2 = trace st ++ [LogScanning i' total domain; Request i' domain;
                           verdict i' total domain td' found'] ∧
  ∀ key, key ∈ header_ids → key ∉ name_columns →
    result_row env domain td' !! key = result_row env domain td !! key.
Proof.
  intros Hdet Hdet' Hfind Hfind' Hslots Hreq Hlast Hcode Hmsg Hsoc Herr Hrs st1 st2.
  subst st1 st2. unfold scan_domain.
  rewrite Hdet, Hdet', Hfind, Hfind', <- (slots_throw_agree _ _ Hrs), Hslots.
  cbn [rows used trace].
  do 6 (split; [done|]).
  intros key Hkey Hnot.
  rewrite !result_row_ten, Hreq, Hlast, Hcode, Hmsg, Hsoc, Herr.
  rewrite (Forall2_length _ _ _ Hrs).
  symmetry. apply ten_slots_agree; [..|done|done];
    apply cell_agree; try done; intros t1 t2 (H1 & H2 & H3 & H4);
    unfold id_cell, version_cell, categories_cell, categories_text, url_cell;
    by rewrite ?H1, ?H2, ?H3, ?H4.
Qed.

Lemma verdict_only_logged_witness :
  let env := sample_env umbraco_then_wordpress [] [] in
  let td := {| request := JString "https://whatcms.org/API/Tech";
               last_checked := JString "2024-01-15 10:30:00";
               result_code := JNumber 200; result_msg := JString "Success";
               results := [umbraco_tech]; meta_social := [];
               error := JString "" |} in
  let td' := {| request := JString "https://whatcms.org/API/Tech";
                last_checked := JString "2024-01-15 10:30:00";
                result_code := JNumber 200; result_msg := JString "Success";
                results := [wordpress_tech]; meta_social := [];
                error := JString "" |} in
  detectCMS (axios_get env 0 "a.com") = inr td ∧
  detectCMS (axios_get env 1 "a.com") = inr td' ∧
  find_umbraco (results td) = Some (Some umbraco_tech) ∧
  find_umbraco (results td') = Some None ∧
  rows (scan_domain env 0 2 "a.com" initial) = [result_row env "a.com" td] ∧
  rows (scan_domain env 1 2 "a.com" initial) = [result_row env "a.com" td'] ∧
  result_row env "a.com" td' !! "tech1_id" =
    result_row env "a.com" td !! "tech1_id".
Proof.
  do 4 (split; [reflexivity|]).
  destruct (verdict_only_logged (sample_env umbraco_then_wordpress [] []) 0 1 2
              "a.com" initial _ _ _ _ eq_refl eq_refl eq_refl eq_refl
              eq_refl eq_refl eq_refl eq_refl eq_refl eq_refl eq_refl)
    as (Hrows & Hrows' & _ & _ & _ & _ & Hsame).
  { repeat constructor. }
  split; [exact Hrows|]. split; [exact Hrows'|].
  apply Hsame.
  - apply (bool_decide_unpack _). by vm_compute.
  - apply (bool_decide_unpack _). by vm_compute.
Defined.

(** C10 as stated fails. The two answers differ only in the name of
    their first technology, Umbraco in one and Drupal in the other,
    and both hold a second entry whose name is the number 5. With
    Umbraco the search stops at the first entry and the turn pushes
    the result row; with Drupal the search goes on to the second
    entry, the call of [toLowerCase] throws, and the turn pushes an
    error row: the rows differ in columns that hold no technology
    name. *)
Lemma match_decides_the_row :
  let env := sample_env umbraco_or_drupal [] [] in
  let td := {| request := JString "https://whatcms.org/API/Tech";
               last_checked := JString "2024-01-15 10:30:00";
               result_code := JNumber 200; result_msg := JString "Success";
               results := [umbraco_tech; numbered_tech]; meta_social := [];
               error := JString "" |} in
  let td' := {| request := JString "https://whatcms.org/API/Tech";
                last_checked := JString "2024-01-15 10:30:00";
                result_code := JNumber 200; result_msg := JString "Success";
                results := [drupal_tech; numbered_tech]; meta_social := [];
                error := JString "" |} in
  detectCMS (axios_get env 0 "a.com") = inr td ∧
  detectCMS (axios_get env 1 "a.com") = inr td' ∧
  Forall2 same_but_name (results td) (results td') ∧
  rows (scan_domain env 0 2 "a.com" initial) = [result_row env "a.com" td] ∧
  rows (scan_domain env 1 2 "a.com" initial) =
    [error_row "a.com" name_type_error] ∧
  ("results_count" ∈ header_ids) ∧ ("results_count" ∉ name_columns) ∧
  result_row env "a.com" td !! "results_count" = Some (JNumber 2) ∧
  error_row "a.com" name_type_error !! "results_count" = Some (JNumber 0) ∧
  result_row env "a.com" td !! "error" = Some (JString "") ∧
  error_row "a.com" name_type_error !! "error" = Some (JString name_type_error).
Proof.
  do 2 (split; [reflexivity|]).
  split; [by repeat constructor|].
  do 2 (split; [reflexivity|]).
  split; [apply (bool_decide_unpack _); by vm_compute|].
  split; [apply (bool_decide_unpack _); by vm_compute|].
  repeat split; by vm_compute.
Qed.

(** * Further properties of the code *)

(** ** The detector client *)

Lemma js_or_defined (v : jsval) :
  js_or v (JString "") ≠ JUndefined ∧ js_or v (JString "") ≠ JNull ∧
  (truthy v = false → js_or v (JString "") = JString "").
Proof.
  unfold js_or. destruct v as [| |[]|n|s|t]; simpl; repeat split; try done.
  - destruct (n =? 0)%Z; done.
  - destruct (n =? 0)%Z; done.
  - destruct (n =? 0)%Z; done.
  - destruct (String.eqb s ""); done.
  - destruct (String.eqb s ""); done.
  - destruct (String.eqb s ""); done.
Qed.

(** X1. An answer without a truthy [error] always gives a result. Each
    of its four scalar fields is the upstream value when that is
    truthy and [''] otherwise, the two lists are the upstream lists
    when they are there and empty otherwise, and [error] is ['']; so
    no field of the result is [undefined] or [null]. *)
Theorem detectCMS_normalises (data : Payload) :
  truthy (data_error data) = false →
  ∃ td, detectCMS (HttpOk data) = inr td ∧
    request td =
      (if truthy (data_request data) then data_request data else JString "") ∧
    last_checked td =
      (if truthy (data_last_checked data) then data_last_checked data
       else JString "") ∧
    result_code td =
      match data_result data with
      | Some r => if truthy (code r) then code r else JString ""
      | None => JString ""
      end ∧
    result_msg td =
      match data_result data with
      | Some r => if truthy (msg r) then msg r else JString ""
      | None => JString ""
      end ∧
    results td =
      match data_results data with Some l => l | None => [] end ∧
    meta_social td =
      match data_meta data with
      | Some {| social := Some l |} => l
      | _ => []
      end ∧
    error td = JString "" ∧
    Forall (λ v, v ≠ JUndefined ∧ v ≠ JNull)
      [request td; last_checked td; result_code td; result_msg td; error td].
Proof.
  intros Herr. cbn [detectCMS]. rewrite Herr. eexists. split; [reflexivity|].
  cbn [request last_checked result_code result_msg results meta_social error].
  split; [done|]. split; [done|].
  split; [by destruct (data_result data)|].
  split; [by destruct (data_result data)|].
  split; [by destruct (data_results data)|].
  split; [by destruct (data_meta data) as [[[l|]]|]|].
  split; [done|].
  repeat constructor; try done; apply js_or_defined.
Qed.

Lemma detectCMS_normalises_witness :
  ∃ td, detectCMS (HttpOk {| data_error := JBool false; data_msg := JUndefined;
                             data_request := JString "https://a.nl";
                             data_last_checked := JNull;
                             data_result := None;
                             data_results := Some [umbraco_tech];
                             data_meta := None |}) = inr td ∧
        request td = JString "https://a.nl" ∧ last_checked td = JString "" ∧
        results td = [umbraco_tech].
Proof.
  destruct (detectCMS_normalises
              {| data_error := JBool false; data_msg := JUndefined;
                 data_request := JString "https://a.nl";
                 data_last_checked := JNull;
                 data_result := None; data_results := Some [umbraco_tech];
                 data_meta := None |} eq_refl)
    as (td & Htd & Hreq & Hlast & _ & _ & Hres & _).
  exists td. repeat split; assumption.
Defined.

(** X2. An upstream error that carries no [msg] is thrown with an empty
    message: the domain gets an error row whose [error] column is
    empty, and the request is not counted. *)
Theorem upstream_error_without_msg (env : Env) (i total : nat) (d : string)
    (st : ScanState) (data : Payload) :
  axios_get env i d = HttpOk data →
  truthy (data_error data) = true →
  data_msg data = JUndefined →
  let st' := scan_domain env i total d st in
  rows st' = rows st ++ [error_row d ""] ∧
  error_row d "" !! "error" = Some (JString "") ∧
  used st' = used st.
Proof.
  intros Hresp Herr Hmsg st'. subst st'. unfold scan_domain, detectCMS.
  rewrite Hresp, Herr, Hmsg. cbn [error_message used rows].
  split; [done|]. split; [by vm_compute|done].
Qed.

Lemma upstream_error_without_msg_witness :
  let answer := λ (_ : nat) (_ : string),
    HttpOk {| data_error := JBool true; data_msg := JUndefined;
              data_request := JUndefined; data_last_checked := JUndefined;
              data_result := None; data_results := None; data_meta := None |} in
  rows (scan_domain (sample_env answer [] []) 0 1 "a.com" initial) =
    [error_row "a.com" ""].
Proof.
  apply (upstream_error_without_msg
           (sample_env (λ _ _,
              HttpOk {| data_error := JBool true; data_msg := JUndefined;
                        data_request := JUndefined;
                        data_last_checked := JUndefined;
                        data_result := None; data_results := None;
                        data_meta := None |}) [] [])
           0 1 "a.com" initial _ eq_refl eq_refl eq_refl).
Defined.

(** ** Plans *)

Lemma PLANS_entries (id : string) (plan : Plan) :
  PLANS id = Some plan →
  (id, plan) ∈
    [("free", {| monthlyQuota := 500; minTimeMs := 15000 |});
     ("10000", {| monthlyQuota := 10000; minTimeMs := 5000 |});
     ("20000", {| monthlyQuota := 20000; minTimeMs := 2000 |});
     ("50000", {| monthlyQuota := 50000; minTimeMs := 1000 |});
     ("100000", {| monthlyQuota := 100000; minTimeMs := 1000 |});
     ("200000", {| monthlyQuota := 200000; minTimeMs := 250 |});
     ("300000", {| monthlyQuota := 300000; minTimeMs := 250 |});
     ("400000", {| monthlyQuota := 400000; minTimeMs := 250 |});
     ("500000", {| monthlyQuota := 500000; minTimeMs := 250 |})].
Proof.
  unfold PLANS.
  repeat match goal with
  | |- context [if String.eqb id ?b then _ else _] =>
      destruct (String.eqb_spec id b) as [Heq|_];
      [intros [= <-]; subst id; set_solver|]
  end.
  done.
Qed.

(** X3. Every plan of the table has a quota of at least 500 and an interval
    between 250 ms and 15 s; a plan other than [free] is named by its
    quota; and a plan with a larger quota never has a longer interval. *)
Theorem plans_table (id : string) (plan : Plan) :
  PLANS id = Some plan →
  (500 ≤ monthlyQuota plan)%N ∧
  (250 ≤ minTimeMs plan ≤ 15000)%N ∧
  (id ≠ "free" → pretty (monthlyQuota plan) = id) ∧
  ∀ id' plan', PLANS id' = Some plan' →
    (monthlyQuota plan ≤ monthlyQuota plan')%N →
    (minTimeMs plan' ≤ minTimeMs plan)%N.
Proof.
  intros Hplan. apply PLANS_entries in Hplan.
  split; [|split; [|split]].
  - repeat (apply elem_of_cons in Hplan as [[= -> ->]|Hplan];
            [cbn [monthlyQuota]; lia|]).
    by apply elem_of_nil in Hplan.
  - repeat (apply elem_of_cons in Hplan as [[= -> ->]|Hplan];
            [cbn [minTimeMs]; lia|]).
    by apply elem_of_nil in Hplan.
  - intros Hfree.
    repeat (apply elem_of_cons in Hplan as [[= -> ->]|Hplan];
            [first [done | by vm_compute]|]).
    by apply elem_of_nil in Hplan.
  - intros id' plan' Hplan'. apply PLANS_entries in Hplan'.
    repeat (apply elem_of_cons in Hplan as [[= -> ->]|Hplan];
            [repeat (apply elem_of_cons in Hplan' as [[= -> ->]|Hplan'];
                     [cbn [monthlyQuota minTimeMs]; lia|]);
             by apply elem_of_nil in Hplan'|]).
    by apply elem_of_nil in Hplan.
Qed.

Lemma plans_table_witness :
  PLANS "20000" = Some {| monthlyQuota := 20000; minTimeMs := 2000 |} ∧
  (500 ≤ 20000)%N ∧ pretty 20000%N = "20000".
Proof.
  split; [reflexivity|].
  destruct (plans_table "20000" {| monthlyQuota := 20000; minTimeMs := 2000 |} eq_refl)
    as (H1 & _ & H3 & _).
  split; [exact H1|]. apply H3. discriminate.
Defined.

(** ** Before the scan *)

Lemma load_domains_stop (env : Env) (opts : Options) (stop : outcome) :
  load_domains env opts = inl stop → stop = Crash ∨ stop = Exit 1.
Proof.
  unfold load_domains.
  repeat match goal with
  | |- context [if ?b then _ else _] => destruct b
  | |- context [match ?o with Some _ => _ | None => _ end] => destruct o
  end; intros [= <-]; auto.
Qed.

Lemma domains_to_scan_stop (env : Env) (opts : Options) (stop : outcome) :
  domains_to_scan env opts = inl stop →
  stop = Crash ∨ stop = Exit 1 ∨
  (stop = Exit 0 ∧ load_domains env opts = inr []).
Proof.
  unfold domains_to_scan.
  destruct (load_domains env opts) as [stop'|domains] eqn:Hload.
  - intros [= <-]. apply load_domains_stop in Hload as [->| ->]; auto.
  - destruct domains as [|d rest]; [|done]. intros [= <-]. auto.
Qed.

(** X4. A missing API key, the source [alexa], a plan that is neither
    an entry of the table nor a name that the table inherits, [--fetch]
    with a source other than [majestic] and [tranco], and the absence
    of [--fetch], [--input] and [--domain] each end the process with
    exit code 1: nothing is requested and nothing is written. *)
Theorem configuration_errors_exit (env : Env) (opts : Options) :
  str_truthy (api_key env) = false ∨
  opt_source opts = "alexa" ∨
  (PLANS (opt_plan opts) = None ∧ inherited_name (opt_plan opts) = false) ∨
  (opt_fetch opts = true ∧ opt_source opts ≠ "majestic" ∧
   opt_source opts ≠ "tranco") ∨
  (opt_fetch opts = false ∧ str_truthy (opt_input opts) = false ∧
   str_truthy (opt_domain opts) = false) →
  main env opts = Exit 1.
Proof.
  unfold main, prepare.
  destruct (str_truthy (api_key env)); [|done]. cbn [negb].
  destruct (String.eqb_spec (opt_source opts) "alexa") as [Ha|Ha]; [done|].
  assert (Hload : opt_fetch opts = true ∧ opt_source opts ≠ "majestic" ∧
                  opt_source opts ≠ "tranco" ∨
                  opt_fetch opts = false ∧ str_truthy (opt_input opts) = false ∧
                  str_truthy (opt_domain opts) = false →
                  domains_to_scan env opts = inl (Exit 1)).
  { unfold domains_to_scan, load_domains.
    intros [(Hf & Hm & Ht)|(Hf & Hi & Hd)]; rewrite Hf.
    - destruct (String.eqb_spec (opt_source opts) "majestic"); [done|].
      by destruct (String.eqb_spec (opt_source opts) "tranco").
    - by rewrite Hi, Hd. }
  intros [H|[H|[[Hp Hi]|H]]]; try done.
  - by rewrite Hp, Hi.
  - destruct (PLANS (opt_plan opts)) as [plan|].
    + by rewrite Hload by tauto.
    + destruct (inherited_name (opt_plan opts)); [|done].
      unfold run_without_quota. by rewrite Hload by tauto.
Qed.

Lemma configuration_errors_exit_witness :
  main (sample_env always_umbraco ["a.nl"] [])
    {| opt_plan := "gold"; opt_source := "tranco"; opt_extension := "nl";
       opt_fetch := false; opt_input := Some "domains.txt";
       opt_domain := None; opt_limit := None; opt_output := "results.csv" |}
  = Exit 1.
Proof.
  apply configuration_errors_exit. right. right. left.
  split; reflexivity.
Defined.

(** X5. The process ends by itself with exit code 1 or 0 only, and with 0
    only when the list that was loaded is empty. *)
Theorem exit_codes (env : Env) (opts : Options) (code : Z) :
  main env opts = Exit code →
  code = 1%Z ∨ (code = 0%Z ∧ load_domains env opts = inr []).
Proof.
  assert (Hstop : ∀ stop, domains_to_scan env opts = inl stop →
                  stop = Exit code →
                  code = 1%Z ∨ (code = 0%Z ∧ load_domains env opts = inr [])).
  { intros stop [->|[->|[-> Hload]]]%domains_to_scan_stop; [done|..].
    - intros [= <-]. by left.
    - intros [= <-]. by right. }
  unfold main, prepare.
  destruct (str_truthy (api_key env)); cbn [negb]; [|intros [= <-]; by left].
  destruct (String.eqb (opt_source opts) "alexa"); [intros [= <-]; by left|].
  destruct (PLANS (opt_plan opts)) as [plan|].
  - destruct (domains_to_scan env opts) as [stop|domains] eqn:Hd.
    + by apply Hstop.
    + by destruct (scan env plan domains).
  - destruct (inherited_name (opt_plan opts)); [|intros [= <-]; by left].
    unfold run_without_quota.
    destruct (domains_to_scan env opts) as [stop|domains] eqn:Hd; [|done].
    by apply Hstop.
Qed.

Lemma exit_codes_witness :
  load_domains (sample_env always_umbraco [] [])
    (sample_opts (Some "domains.txt") None "results.csv") = inr [].
Proof.
  destruct (exit_codes (sample_env always_umbraco [] [])
              (sample_opts (Some "domains.txt") None "results.csv") 0 eq_refl)
    as [H|[_ H]]; [discriminate H|exact H].
Defined.

(** X6. Without [--fetch], no domain of the loaded list is the empty
    string: empty lines of the input file are dropped, and a single
    domain is taken only when it is not empty. *)
Theorem loaded_domains_not_empty (env : Env) (opts : Options)
    (domains : list string) :
  opt_fetch opts = false →
  load_domains env opts = inr domains →
  Forall (λ d, d ≠ "") domains.
Proof.
  intros Hf. unfold load_domains. rewrite Hf.
  destruct (str_truthy (opt_input opts)).
  - destruct (read_lines env _) as [lines|]; [|done].
    intros [= <-]. apply Forall_forall. by intros d [? _]%list_elem_of_filter.
  - destruct (opt_domain opts) as [d|]; simpl; [|done].
    destruct (String.eqb_spec d ""); simpl; [done|].
    intros [= <-]. by repeat constructor.
Qed.

Lemma loaded_domains_not_empty_witness :
  load_domains (sample_env always_umbraco ["a.nl"; ""; "b.com"; ""] [])
    (sample_opts (Some "domains.txt") None "results.csv") = inr ["a.nl"; "b.com"] ∧
  Forall (λ d, d ≠ "") ["a.nl"; "b.com"].
Proof.
  split; [reflexivity|].
  apply (loaded_domains_not_empty
           (sample_env always_umbraco ["a.nl"; ""; "b.com"; ""] [])
           (sample_opts (Some "domains.txt") None "results.csv")
           ["a.nl"; "b.com"] eq_refl eq_refl).
Defined.

(** X7. Lines 220-225 without [--domain], for an extension of letters,
    digits and ['-']: every domain handed to the loop ends with ['.']
    and the extension, letter case aside; the domains are a sublist of
    the loaded list (nothing is added or reordered); and a positive
    limit bounds their number. *)
Theorem selected_domains (env : Env) (opts : Options) (domains : list string) :
  domains_to_scan env opts = inr domains →
  str_truthy (opt_domain opts) = false →
  literal_extension (opt_extension opts) = true →
  Forall (λ d, tld_test (opt_extension opts) d = true) domains ∧
  (∃ loaded, load_domains env opts = inr loaded ∧ domains `sublist_of` loaded) ∧
  (∀ n, opt_limit opts = Some n → (0 < n)%Z → length domains ≤ Z.to_nat n).
Proof.
  unfold domains_to_scan. intros Hprep Hd _.
  destruct (load_domains env opts) as [|loaded]; [done|].
  destruct (length loaded =? 0); [done|].
  injection Hprep as <-. unfold select_domains. rewrite Hd.
  set (kept := filter (λ d, tld_test (opt_extension opts) d = true) loaded).
  assert (Hkept : Forall (λ d, tld_test (opt_extension opts) d = true) kept).
  { apply Forall_forall. by intros d [? _]%list_elem_of_filter. }
  assert (Hsub : kept `sublist_of` loaded) by apply sublist_filter.
  assert (Hslice : ∀ n, slice_0 n kept `sublist_of` kept).
  { intros n. unfold slice_0. destruct (0 <=? n)%Z; apply sublist_take. }
  destruct (opt_limit opts) as [n|]; simpl.
  - destruct (n =? 0)%Z eqn:Hn; simpl.
    + split; [done|]. split; [by exists loaded|]. intros ? [= <-]. lia.
    + split; [|split].
      * unfold slice_0. destruct (0 <=? n)%Z; by apply Forall_take.
      * exists loaded. split; [done|]. etrans; [apply Hslice|done].
      * intros ? [= <-] Hpos. unfold slice_0.
        rewrite (proj2 (Z.leb_le 0 n)) by lia. rewrite length_take. lia.
  - split; [done|]. split; [by exists loaded|done].
Qed.

Lemma selected_domains_witness :
  domains_to_scan (sample_env always_umbraco ["a.nl"; "example.com"; "B.NL"] [])
    (sample_opts (Some "domains.txt") None "results.csv") = inr ["a.nl"; "B.NL"] ∧
  Forall (λ d, tld_test "nl" d = true) ["a.nl"; "B.NL"].
Proof.
  split; [reflexivity|].
  apply (selected_domains
           (sample_env always_umbraco ["a.nl"; "example.com"; "B.NL"] [])
           (sample_opts (Some "domains.txt") None "results.csv")
           ["a.nl"; "B.NL"] eq_refl eq_refl eq_refl).
Defined.

(** X8. [slice(0, n)] of the limit: a negative [n] counts from the end, so
    [--limit -k] drops the last [k] domains, and the sequence is empty
    when it has no more than [k]. *)
Theorem negative_limit_drops_last (opts : Options) (loaded : list string) (k : nat) :
  str_truthy (opt_domain opts) = false →
  opt_limit opts = Some (- Z.of_nat (S k))%Z →
  select_domains opts loaded =
    take (length (filter (λ d, tld_test (opt_extension opts) d = true) loaded) - S k)
      (filter (λ d, tld_test (opt_extension opts) d = true) loaded).
Proof.
  intros Hd Hl. unfold select_domains. rewrite Hd, Hl.
  cbn [limit_truthy default from_option Datatypes.id].
  rewrite (proj2 (Z.eqb_neq (- Z.of_nat (S k)) 0)) by lia. cbn [negb].
  unfold slice_0. rewrite (proj2 (Z.leb_gt 0 (- Z.of_nat (S k)))) by lia.
  f_equal. lia.
Qed.

Lemma negative_limit_drops_last_witness :
  select_domains
    {| opt_plan := "free"; opt_source := "tranco"; opt_extension := "nl";
       opt_fetch := false; opt_input := Some "domains.txt";
       opt_domain := None; opt_limit := Some (-1)%Z;
       opt_output := "results.csv" |}
    ["a.nl"; "b.nl"; "c.com"] = ["a.nl"].
Proof.
  apply (negative_limit_drops_last
           {| opt_plan := "free"; opt_source := "tranco"; opt_extension := "nl";
              opt_fetch := false; opt_input := Some "domains.txt";
              opt_domain := None; opt_limit := Some (-1)%Z;
              opt_output := "results.csv" |}
           ["a.nl"; "b.nl"; "c.com"] 0 eq_refl eq_refl).
Defined.

(** ** More on the scan loop *)

Lemma scan_loop_all_fail (env : Env) (plan : Plan) (total : nat)
    (domains : list string) (i : nat) (st : ScanState) :
  (∀ j d, succeeds env j d = false) →
  (used st < monthlyQuota plan)%N →
  (scan_loop env plan total i domains st).1 = Completed ∧
  used (scan_loop env plan total i domains st).2 = used st ∧
  requests (trace (scan_loop env plan total i domains st).2) =
    requests (trace st) ++ domains ∧
  length (rows (scan_loop env plan total i domains st).2) =
    length (rows st) + length domains.
Proof.
  intros Hfail. revert i st.
  induction domains as [|d rest IH]; intros i st Hq.
  - simpl. rewrite app_nil_r. repeat split; lia.
  - rewrite scan_loop_step by done.
    assert (Hu : used (scan_domain env i total d st) = used st).
    { rewrite scan_domain_used, Hfail. lia. }
    destruct (IH (S i) (scan_domain env i total d st)) as (Hs & Hused & Hreq & Hlen).
    { by rewrite Hu. }
    rewrite Hs, Hused, Hreq, Hlen, Hu, scan_domain_requests, scan_domain_rows.
    rewrite length_app, <- app_assoc. simpl. repeat split; lia.
Qed.

(** X9. Failures do not use the quota up: when every detection fails and
    the quota is positive, the run never halts; it makes a request for
    every domain, pushes a row for each, and ends with [used = 0]. *)
Theorem failures_never_halt (env : Env) (plan : Plan) (domains : list string) :
  (∀ i d, succeeds env i d = false) →
  (0 < monthlyQuota plan)%N →
  (scan env plan domains).1 = Completed ∧
  used (scan env plan domains).2 = 0%N ∧
  requests (trace (scan env plan domains).2) = domains ∧
  length (rows (scan env plan domains).2) = length domains.
Proof.
  intros Hfail Hq.
  by apply (scan_loop_all_fail env plan (length domains) domains 0 initial).
Qed.

Lemma failures_never_halt_witness :
  let env := sample_env always_times_out [] [] in
  (scan env {| monthlyQuota := 1; minTimeMs := 0 |} ["a.com"; "b.com"; "c.com"]).1
    = Completed ∧
  used (scan env {| monthlyQuota := 1; minTimeMs := 0 |}
          ["a.com"; "b.com"; "c.com"]).2 = 0%N.
Proof.
  destruct (failures_never_halt (sample_env always_times_out [] [])
              {| monthlyQuota := 1; minTimeMs := 0 |} ["a.com"; "b.com"; "c.com"])
    as (Hs & Hu & _); [reflexivity|reflexivity|].
  split; [exact Hs|exact Hu].
Defined.

Lemma scan_loop_all_succeed (env : Env) (plan : Plan) (total : nat)
    (domains : list string) (i : nat) (st : ScanState) :
  (∀ j d, succeeds env j d = true) →
  (used st ≤ monthlyQuota plan)%N →
  used (scan_loop env plan total i domains st).2 =
    N.min (monthlyQuota plan) (used st + N.of_nat (length domains)) ∧
  N.of_nat (length (rows (scan_loop env plan total i domains st).2)) =
    (N.of_nat (length (rows st)) +
     (used (scan_loop env plan total i domains st).2 - used st))%N ∧
  ((scan_loop env plan total i domains st).1 = Halted ↔
   (monthlyQuota plan < used st + N.of_nat (length domains))%N).
Proof.
  intros Hok. revert i st.
  induction domains as [|d rest IH]; intros i st Hq.
  - simpl. repeat split; try lia; done.
  - destruct (N.le_gt_cases (monthlyQuota plan) (used st)) as [Hfull|Hfree].
    + rewrite scan_loop_halt by done. simpl length. cbn [fst snd halt used rows].
      repeat split; try lia; done.
    + rewrite scan_loop_step by done.
      assert (Hu : used (scan_domain env i total d st) = (used st + 1)%N).
      { by rewrite scan_domain_used, Hok. }
      destruct (IH (S i) (scan_domain env i total d st)) as (Hused & Hlen & Hs).
      { rewrite Hu. lia. }
      rewrite Hused, Hlen, Hs, Hu, scan_domain_rows, length_app.
      simpl length. repeat split; lia.
Qed.

(** X10. When every detection succeeds, the run scans the first
    [min(quota, number of domains)] domains: [used] and the number of
    rows are that minimum, and the run is Halted exactly when the
    quota is smaller than the number of domains. *)
Theorem successes_fill_the_quota (env : Env) (plan : Plan) (domains : list string) :
  (∀ i d, succeeds env i d = true) →
  used (scan env plan domains).2 =
    N.min (monthlyQuota plan) (N.of_nat (length domains)) ∧
  N.of_nat (length (rows (scan env plan domains).2)) =
    N.min (monthlyQuota plan) (N.of_nat (length domains)) ∧
  ((scan env plan domains).1 = Halted ↔
   (monthlyQuota plan < N.of_nat (length domains))%N).
Proof.
  intros Hok.
  destruct (scan_loop_all_succeed env plan (length domains) domains 0 initial Hok)
    as (Hused & Hlen & Hs); [simpl; lia|].
  unfold scan. simpl in *. rewrite Hlen, Hused. repeat split; try lia.
  - apply Hs.
  - apply Hs.
Qed.

Lemma successes_fill_the_quota_witness :
  used (scan (sample_env always_umbraco [] []) {| monthlyQuota := 2; minTimeMs := 0 |}
          ["a.com"; "b.com"; "c.com"]).2 = 2%N.
Proof.
  apply (successes_fill_the_quota (sample_env always_umbraco [] [])
           {| monthlyQuota := 2; minTimeMs := 0 |} ["a.com"; "b.com"; "c.com"]).
  reflexivity.
Defined.

(** X11. A halted run has used the quota exactly and has left at least one
    domain without a row; a completed run has a row for every domain. *)
Theorem halted_at_the_quota (env : Env) (plan : Plan) (domains : list string) :
  ((scan env plan domains).1 = Halted →
     used (scan env plan domains).2 = monthlyQuota plan ∧
     length (rows (scan env plan domains).2) < length domains) ∧
  ((scan env plan domains).1 = Completed →
     length (rows (scan env plan domains).2) = length domains).
Proof.
  destruct (scan_loop_turns env plan (length domains) domains 0 initial)
    as (k & Hk & Hrows & _ & Hc & Hh).
  pose proof (scan_loop_quota env plan (length domains) domains 0 initial) as Hq.
  change (scan_loop env plan (length domains) 0 domains initial)
    with (scan env plan domains) in *.
  assert (Hlen : length (rows (scan env plan domains).2) = k).
  { rewrite Hrows. simpl. rewrite length_imap, length_take. lia. }
  split.
  - intros Hs. destruct (Hh Hs) as [Hlt Hge]. split; [|lia].
    apply N.le_antisymm; [apply Hq; simpl; lia|done].
  - intros Hs. rewrite Hlen. by apply Hc.
Qed.

Lemma quota_warning_last (env : Env) (plan : Plan) (total : nat)
    (domains : list string) (i : nat) (st : ScanState) :
  (∀ q, LogQuotaReached q ∉ trace st) →
  match (scan_loop env plan total i domains st).1 with
  | Halted =>
      ∃ tr, trace (scan_loop env plan total i domains st).2 =
              tr ++ [LogQuotaReached (monthlyQuota plan)] ∧
            ∀ q, LogQuotaReached q ∉ tr
  | Completed => ∀ q, LogQuotaReached q ∉ trace (scan_loop env plan total i domains st).2
  end.
Proof.
  revert i st. induction domains as [|d rest IH]; intros i st Hst; [done|].
  destruct (N.le_gt_cases (monthlyQuota plan) (used st)) as [Hfull|Hfree].
  - rewrite scan_loop_halt by done. simpl. by exists (trace st).
  - rewrite scan_loop_step by done. apply IH. intros q.
    unfold scan_domain.
    turn_cases; cbn [trace];
      rewrite elem_of_app; intros [H|H]; try (by apply (Hst q));
      try (unfold verdict in H; destruct found);
      repeat (apply elem_of_cons in H as [H|H]; [done|]);
      by apply elem_of_nil in H.
Qed.

(** X12. The warning about the quota is printed by halted runs only, once,
    and as the last thing the loop does. *)
Theorem quota_warning_iff_halted (env : Env) (plan : Plan) (domains : list string) :
  ((scan env plan domains).1 = Halted ↔
   ∃ q, LogQuotaReached q ∈ trace (scan env plan domains).2) ∧
  ((scan env plan domains).1 = Halted →
   ∃ tr, trace (scan env plan domains).2 =
           tr ++ [LogQuotaReached (monthlyQuota plan)] ∧
         ∀ q, LogQuotaReached q ∉ tr).
Proof.
  pose proof (quota_warning_last env plan (length domains) domains 0 initial) as H.
  change (scan_loop env plan (length domains) 0 domains initial)
    with (scan env plan domains) in H.
  assert (Hinit : ∀ q, LogQuotaReached q ∉ trace initial).
  { intros q Hq. by apply elem_of_nil in Hq. }
  specialize (H Hinit).
  destruct (scan env plan domains).1.
  - split; [|done]. split; [done|]. intros [q Hq]. exfalso. apply (H q Hq).
  - destruct H as (tr & Htr & Hno).
    split; [|intros _; by exists tr].
    split; [|done]. intros _. exists (monthlyQuota plan). rewrite Htr.
    apply elem_of_app. right. apply list_elem_of_singleton. done.
Qed.

(** X13. Every record handed to the CSV writer has exactly the columns of
    the header, which are 59 and distinct. *)
Theorem records_have_header_columns (env : Env) (plan : Plan) (domains : list string) :
  Forall (λ row : gmap string jsval, dom row = list_to_set header_ids)
    (rows (scan env plan domains).2) ∧
  NoDup header_ids ∧ length header_ids = 59.
Proof.
  split; [|split; [apply (bool_decide_unpack _); by vm_compute|done]].
  destruct (scan_loop_turns env plan (length domains) domains 0 initial)
    as (k & _ & Hrows & _).
  change (scan_loop env plan (length domains) 0 domains initial)
    with (scan env plan domains) in Hrows.
  rewrite Hrows. cbn [rows initial app]. apply Forall_forall.
  intros row (j & d & -> & _)%elem_of_lookup_imap.
  unfold row_of. turn_cases;
    rewrite ?error_row_ten, ?result_row_ten; apply ten_slots_dom.
Qed.

(** ** The match on Umbraco *)

Lemma string_map_length (f : ascii → ascii) (s : string) :
  String.length (string_map f s) = String.length s.
Proof. induction s as [|c s IH]; simpl; [done|]. by rewrite IH. Qed.

Lemma lower_char_idemp (c : ascii) : lower_char (lower_char c) = lower_char c.
Proof. destruct c as [[] [] [] [] [] [] [] []]; by vm_compute. Qed.

Lemma toLowerCase_idemp (s : string) : toLowerCase (toLowerCase s) = toLowerCase s.
Proof.
  unfold toLowerCase. induction s as [|c s IH]; simpl; [done|].
  by rewrite lower_char_idemp, IH.
Qed.

Lemma find_first_match (l1 l2 : list Tech) (t : Tech) :
  Forall (λ x, is_umbraco x = Some false) l1 → is_umbraco t = Some true →
  find_umbraco (l1 ++ t :: l2) = Some (Some t).
Proof.
  intros Hl1 Ht. induction Hl1 as [|x l1 Hx _ IH]; simpl.
  - by rewrite Ht.
  - by rewrite Hx.
Qed.

(** X15. When the search of a detection result reaches a match, that is,
    when every technology before the first one named 'umbraco' has a
    name that is a string or falsy, the line printed is about that
    first technology: it shows its version, or no version when it has
    none. When the slot loop does not throw either, the turn counts
    the request and pushes the result row. *)
Theorem verdict_first_match (env : Env) (i total : nat) (d : string)
    (st : ScanState) (td : TechData) (l1 l2 : list Tech) (t : Tech) :
  detectCMS (axios_get env i d) = inr td →
  results td = l1 ++ t :: l2 →
  Forall (λ x, is_umbraco x = Some false) l1 →
  is_umbraco t = Some true →
  slots_throw (results td) = false →
  find_umbraco (results td) = Some (Some t) ∧
  scan_domain env i total d st =
    {| used := used st + 1;
       rows := rows st ++ [result_row env d td];
       trace := trace st ++
         [LogScanning i total d; Request i d;
          LogUmbraco i total d
            (if truthy (version t) then " v" +:+ js_to_string (version t)
             else "")] |}.
Proof.
  intros Hdet Hres Hl1 Ht Hslots.
  assert (Hfind : find_umbraco (results td) = Some (Some t)).
  { rewrite Hres. by apply find_first_match. }
  split; [done|]. unfold scan_domain. by rewrite Hdet, Hfind, Hslots.
Qed.

Lemma verdict_first_match_witness :
  trace (scan_domain (sample_env wordpress_then_umbraco [] []) 0 1 "a.com" initial)
  = [LogScanning 0 1 "a.com"; Request 0 "a.com";
     LogUmbraco 0 1 "a.com" " v10.0.0"].
Proof.
  destruct (verdict_first_match (sample_env wordpress_then_umbraco [] [])
              0 1 "a.com" initial _
              [wordpress_tech] [umbraco_tech] umbraco_tech eq_refl eq_refl)
    as [_ H].
  - by repeat constructor.
  - reflexivity.
  - reflexivity.
  - rewrite H. reflexivity.
Defined.

Lemma find_first_throw (l1 l2 : list Tech) (t : Tech) :
  Forall (λ x, is_umbraco x = Some false) l1 → is_umbraco t = None →
  find_umbraco (l1 ++ t :: l2) = None.
Proof.
  intros Hl1 Ht. induction Hl1 as [|x l1 Hx _ IH]; simpl.
  - by rewrite Ht.
  - by rewrite Hx.
Qed.

(** X14. The search for Umbraco calls [toLowerCase] on every truthy name
    it meets. When the first technology whose name is neither falsy
    nor a string other than 'umbraco' (letter case aside) has a name
    that is not a string, the search throws after the request was
    counted: the turn adds one to [used], pushes the error row with
    the message of the [TypeError] in place of the result row, and
    prints that message. *)
Theorem search_throw_costs_a_request (env : Env) (i total : nat) (d : string)
    (st : ScanState) (td : TechData) (l1 l2 : list Tech) (t : Tech) :
  detectCMS (axios_get env i d) = inr td →
  results td = l1 ++ t :: l2 →
  Forall (λ x, is_umbraco x = Some false) l1 →
  truthy (name t) = true →
  (∀ s, name t ≠ JString s) →
  scan_domain env i total d st =
    {| used := used st + 1;
       rows := rows st ++ [error_row d name_type_error];
       trace := trace st ++
         [LogScanning i total d; Request i d;
          LogError i total d name_type_error] |} ∧
  error_row d name_type_error !! "results_count" = Some (JNumber 0) ∧
  result_row env d td !! "results_count" =
    Some (JNumber (Z.of_nat (length (results td)))).
Proof.
  intros Hdet Hres Hl1 Htruthy Hname.
  assert (Ht : is_umbraco t = None).
  { unfold is_umbraco. destruct (name t) as [| |b|n|s|text]; try done.
    - by rewrite Htruthy.
    - by rewrite Htruthy.
    - by destruct (Hname s). }
  split; [|split].
  - unfold scan_domain. by rewrite Hdet, Hres, (find_first_throw l1 l2 t Hl1 Ht).
  - apply (bool_decide_unpack _). by vm_compute.
  - rewrite result_row_ten. reflexivity.
Qed.

Lemma search_throw_costs_a_request_witness :
  let st := scan_domain (sample_env umbraco_or_drupal [] []) 1 2 "b.com" initial in
  used st = 1%N ∧ rows st = [error_row "b.com" name_type_error].
Proof.
  destruct (search_throw_costs_a_request (sample_env umbraco_or_drupal [] [])
              1 2 "b.com" initial _ [drupal_tech] [] numbered_tech
              eq_refl eq_refl) as [H _].
  - by repeat constructor.
  - reflexivity.
  - intros s. discriminate.
  - cbv zeta. rewrite H. split; reflexivity.
Defined.

(** X23. Line 281 calls [join] on every truthy [categories] of the first
    ten technologies. When one of them is not an array, the slot loop
    throws after the request was counted and after the verdict was
    printed: the turn adds one to [used], prints the verdict and then
    the message of the [TypeError], and pushes the error row in place
    of the result row. *)
Theorem slot_throw_costs_a_request (env : Env) (i total : nat) (d : string)
    (st : ScanState) (td : TechData) (found : option Tech) (k : nat) (t : Tech)
    (v : jsval) :
  detectCMS (axios_get env i d) = inr td →
  find_umbraco (results td) = Some found →
  results td !! k = Some t → k < 10 →
  categories t = inl v → truthy v = true →
  scan_domain env i total d st =
    {| used := used st + 1;
       rows := rows st ++ [error_row d categories_type_error];
       trace := trace st ++
         [LogScanning i total d; Request i d;
          verdict i total d td found;
          LogError i total d categories_type_error] |}.
Proof.
  intros Hdet Hfind Hk Hlt Hcat Hv.
  assert (Hslots : slots_throw (results td) = true).
  { unfold slots_throw. apply existsb_exists. exists t. split.
    - apply list_elem_of_In, (list_elem_of_lookup_2 _ k).
      by rewrite lookup_take_lt.
    - unfold categories_throw. by rewrite Hcat. }
  unfold scan_domain. by rewrite Hdet, Hfind, Hslots.
Qed.

Lemma slot_throw_costs_a_request_witness :
  let st := scan_domain (sample_env always_labelled [] []) 0 1 "a.com" initial in
  used st = 1%N ∧ rows st = [error_row "a.com" categories_type_error] ∧
  trace st = [LogScanning 0 1 "a.com"; Request 0 "a.com";
              LogUmbraco 0 1 "a.com" "";
              LogError 0 1 "a.com" categories_type_error].
Proof.
  cbv zeta.
  rewrite (slot_throw_costs_a_request (sample_env always_labelled [] [])
             0 1 "a.com" initial _ (Some labelled_tech) 1 labelled_tech
             (JString "CMS") eq_refl eq_refl eq_refl);
    [|lia|reflexivity|reflexivity].
  repeat split.
Defined.

(** ** The test of the extension *)

(** X16. For an extension of letters, digits and ['-'], the test does
    not look at the case of the domain's letters, and a dot written
    before the extension changes nothing. *)
Theorem tld_test_case_and_dot (ext d : string) :
  literal_extension ext = true →
  (∀ rest, ext ≠ String "." rest) →
  tld_test ext (toLowerCase d) = tld_test ext d ∧
  tld_test ("." +:+ ext) d = tld_test ext d ∧
  literal_extension ("." +:+ ext) = true.
Proof.
  intros Hlit Hdot. split; [|split].
  - unfold tld_test. by rewrite toLowerCase_idemp.
  - destruct ext as [|c rest]; [reflexivity|].
    unfold tld_test.
    change ("." +:+ String c rest) with (String "." (String c rest)).
    cbv beta iota.
    destruct c as [[] [] [] [] [] [] [] []]; try reflexivity.
    by destruct (Hdot rest).
  - change ("." +:+ ext) with (String "." ext). unfold literal_extension in *.
    destruct ext as [|c rest]; [done|].
    destruct c as [[] [] [] [] [] [] [] []]; try exact Hlit.
    by destruct (Hdot rest).
Qed.

Lemma tld_test_case_and_dot_witness :
  tld_test "nl" (toLowerCase "Example.NL") = tld_test "nl" "Example.NL" ∧
  tld_test ".nl" "Example.NL" = tld_test "nl" "Example.NL".
Proof.
  destruct (tld_test_case_and_dot "nl" "Example.NL" eq_refl) as (H1 & H2 & _).
  - intros rest. discriminate.
  - split; [exact H1|exact H2].
Defined.

(** ** More on the output namer *)

Lemma has_slash_app (a b : string) :
  has_slash (a +:+ b) = has_slash a || has_slash b.
Proof. unfold has_slash. by rewrite list_of_string_app, existsb_app. Qed.

Lemma list_of_string_map (f : ascii → ascii) (s : string) :
  list_ascii_of_string (string_map f s) = map f (list_ascii_of_string s).
Proof. induction s as [|c s IH]; simpl; [done|]. by rewrite IH. Qed.

Lemma substring_0_chars (n : nat) (s : string) :
  list_ascii_of_string (substring 0 n s) = take n (list_ascii_of_string s).
Proof.
  revert n. induction s as [|c s IH]; intros [|n]; simpl; try done.
  by rewrite IH.
Qed.

Lemma string_length_chars (s : string) :
  String.length s = length (list_ascii_of_string s).
Proof. induction s as [|c s IH]; simpl; [done|]. by rewrite IH. Qed.

Lemma timestamp_chars (iso : string) (c : ascii) :
  c ∈ list_ascii_of_string (timestamp iso) →
  ∃ x, x ∈ list_ascii_of_string iso ∧
       c = if Ascii.eqb x ":" || Ascii.eqb x "." then "-"%char else x.
Proof.
  unfold timestamp, slice_to_minus.
  rewrite substring_0_chars, list_of_string_map.
  intros Hc. apply (subseteq_take _ _ c) in Hc.
  change (map ?f ?l) with (f <$> l) in Hc.
  apply list_elem_of_fmap in Hc as (x & -> & Hx). by exists x.
Qed.

Lemma string_map_app (f : ascii → ascii) (a b : string) :
  string_map f (a +:+ b) = string_map f a +:+ string_map f b.
Proof.
  induction a as [|x a IH]; [done|].
  change (String (f x) (string_map f (a +:+ b)) =
          String (f x) (string_map f a +:+ string_map f b)).
  by rewrite IH.
Qed.

Lemma string_app_length (a b : string) :
  String.length (a +:+ b) = String.length a + String.length b.
Proof.
  induction a as [|x a IH]; [done|].
  change (S (String.length (a +:+ b)) = S (String.length a) + String.length b).
  by rewrite IH.
Qed.

Lemma substring_prefix (a b : string) :
  substring 0 (String.length a) (a +:+ b) = a.
Proof.
  induction a as [|x a IH]; [by destruct b|].
  change (String x (substring 0 (String.length a) (a +:+ b)) = String x a).
  by rewrite IH.
Qed.

(** X17. The timestamp is the clock's string without its last five
    characters and with ['-'] for every [':'] and ['.'] of what is
    left; a clock string of five characters or fewer gives the empty
    timestamp. *)
Theorem timestamp_shape (s tail : string) :
  String.length tail = 5 →
  timestamp (s +:+ tail) =
    string_map (λ c, if Ascii.eqb c ":" || Ascii.eqb c "." then "-"%char else c) s ∧
  timestamp tail = "" ∧
  (∀ c, c ∈ list_ascii_of_string (timestamp (s +:+ tail)) →
        c ≠ ":"%char ∧ c ≠ "."%char).
Proof.
  intros Htail.
  assert (Hcut : ∀ s', timestamp (s' +:+ tail) =
    string_map (λ c, if Ascii.eqb c ":" || Ascii.eqb c "." then "-"%char else c) s').
  { intros s'. unfold timestamp, slice_to_minus.
    rewrite string_map_app, string_app_length, !string_map_length, Htail.
    replace (String.length s' + 5 - 5) with
      (String.length (string_map
         (λ c, if Ascii.eqb c ":" || Ascii.eqb c "." then "-"%char else c) s'))
      by (rewrite string_map_length; lia).
    apply substring_prefix. }
  split; [apply Hcut|]. split; [apply (Hcut "")|].
  intros c (x & Hx & ->)%timestamp_chars.
  destruct (Ascii.eqb_spec x ":") as [->|Hcolon]; simpl; [done|].
  destruct (Ascii.eqb_spec x ".") as [->|Hdot]; simpl; done.
Qed.

Lemma timestamp_shape_witness :
  timestamp ("2024-01-15T10:30:00" +:+ ".000Z") = "2024-01-15T10-30-00".
Proof.
  destruct (timestamp_shape "2024-01-15T10:30:00" ".000Z" eq_refl) as [H _].
  exact H.
Defined.

Lemma timestamp_plain (iso : string) :
  has_slash iso = false → has_slash (timestamp iso) = false.
Proof.
  intros Hiso. unfold has_slash in *. apply not_true_is_false.
  intros (c & Hin & Hc)%existsb_exists. apply list_elem_of_In in Hin.
  apply timestamp_chars in Hin as (x & Hx & ->).
  assert (Hns : is_slash x = false).
  { apply not_true_is_false. intros Hxs.
    assert (existsb is_slash (list_ascii_of_string iso) = true); [|congruence].
    apply existsb_exists. exists x. split; [by apply list_elem_of_In|done]. }
  destruct (Ascii.eqb x ":" || Ascii.eqb x "."); [done|congruence].
Qed.

Lemma take_while_forall {A} (p : A → bool) (l : list A) :
  forallb p (take_while p l) = true.
Proof.
  induction l as [|x l IH]; simpl; [done|].
  destruct (p x) eqn:Hx; simpl; [by rewrite Hx|done].
Qed.

Lemma take_while_length {A} (p : A → bool) (l : list A) :
  length (take_while p l) ≤ length l.
Proof.
  induction l as [|x l IH]; simpl; [done|]. destruct (p x); simpl; lia.
Qed.

Lemma drop_while_length {A} (p : A → bool) (l : list A) :
  length (drop_while p l) ≤ length l.
Proof.
  induction l as [|x l IH]; simpl; [done|]. destruct (p x); simpl; lia.
Qed.

Lemma last_part_length (p : list ascii) : length (last_part p) ≤ length p.
Proof.
  unfold last_part. rewrite length_rev.
  etrans; [apply take_while_length|]. etrans; [apply drop_while_length|].
  by rewrite length_rev.
Qed.

Lemma last_part_no_slash (p : list ascii) : existsb is_slash (last_part p) = false.
Proof.
  unfold last_part. apply not_true_is_false.
  intros (c & Hin & Hc)%existsb_exists. apply in_rev in Hin.
  pose proof (take_while_forall (λ c, negb (is_slash c))
                (drop_while is_slash (rev p))) as Hall.
  rewrite forallb_forall in Hall. specialize (Hall c).
  apply Hall in Hin. by rewrite Hc in Hin.
Qed.

(** For every path, base name and extension together are the last
    portion of the path. *)
Lemma basename_extname_last_part (p : list ascii) :
  basename_chars p (extname_chars p) ++ extname_chars p = last_part p.
Proof.
  unfold extname_chars.
  assert (Hnil : basename_chars p [] ++ [] = last_part p).
  { by rewrite basename_chars_nil, app_nil_r. }
  destruct (from_last_dot (last_part p)) as [e|] eqn:He; [|done].
  destruct (length e =? length (last_part p)) eqn:Hlen; [done|].
  case_bool_decide; [done|]. clear Hnil.
  pose proof (last_part_length p) as Hp.
  destruct (from_last_dot_suffix (last_part p) e He) as (Hne & pre & Hc).
  apply Nat.eqb_neq in Hlen. unfold basename_chars.
  rewrite Hc in *. rewrite length_app in *.
  rewrite bool_decide_eq_false_2 by done. simpl.
  rewrite (proj2 (Nat.ltb_ge _ _)) by lia.
  rewrite bool_decide_eq_false_2.
  2:{ intros ->. lia. }
  rewrite ends_with_app. rewrite (proj2 (Nat.ltb_lt _ _)) by lia. simpl.
  replace (length pre + length e - length e) with (length pre) by lia.
  by rewrite take_app_length.
Qed.

(** X18. When a file exists at the resolved path, the name that the namer
    returns has no directory part, whatever directory the resolved path
    names: the base name, the timestamp and the extension hold no
    separator. *)
Theorem existing_path_loses_directory (env : Env) (opts : Options) :
  existsSync env (resolved_filename env opts) = true →
  has_slash (now_exists env) = false →
  has_slash (getOutputFilename env opts) = false.
Proof.
  intros Hex Hnow. unfold getOutputFilename. rewrite Hex.
  set (p := list_ascii_of_string (resolved_filename env opts)).
  pose proof (last_part_no_slash p) as Hlast.
  rewrite <- (basename_extname_last_part p), existsb_app in Hlast.
  apply orb_false_elim in Hlast as [Hbase Hext].
  rewrite !has_slash_app, (timestamp_plain _ Hnow).
  unfold has_slash at 1 3, basename, extname.
  rewrite !list_ascii_of_string_of_list_ascii. fold p.
  by rewrite Hbase, Hext.
Qed.

Lemma existing_path_loses_directory_witness :
  has_slash (getOutputFilename (sample_env always_umbraco [] ["scans/out.csv"])
               (sample_opts None (Some "umbraco.com") "scans/out.csv")) = false.
Proof.
  apply (existing_path_loses_directory
           (sample_env always_umbraco [] ["scans/out.csv"])
           (sample_opts None (Some "umbraco.com") "scans/out.csv")
           eq_refl eq_refl).
Defined.

Lemma string_app_assoc (a b c : string) : (a +:+ b) +:+ c = a +:+ b +:+ c.
Proof.
  induction a as [|x a IH]; [done|].
  change (String x ((a +:+ b) +:+ c) = String x (a +:+ b +:+ c)).
  by rewrite IH.
Qed.

Lemma join_cons_cons (sep x y : string) (l : list string) :
  join sep (x :: y :: l) = x +:+ sep +:+ join sep (y :: l).
Proof. reflexivity. Qed.

Lemma generated_name_prefix (env : Env) (opts : Options) :
  ∃ rest, generateDefaultFilename env opts = "cms-scan-" +:+ rest.
Proof.
  unfold generateDefaultFilename.
  assert (H : ∀ parts : list string,
    ∃ rest, join "-" (("cms-scan" :: parts) ++ [timestamp (now_default env)])
            +:+ ".csv" = "cms-scan-" +:+ rest).
  { intros parts.
    destruct (parts ++ [timestamp (now_default env)]) as [|y l] eqn:Hparts.
    { by destruct parts. }
    change (("cms-scan" :: parts) ++ [timestamp (now_default env)])
      with ("cms-scan" :: (parts ++ [timestamp (now_default env)])).
    rewrite Hparts, join_cons_cons. by eexists. }
  destruct (str_truthy (opt_domain opts)); [apply (H [_; _])|].
  destruct (negb (String.eqb (opt_source opts) ""));
    destruct (negb (String.eqb (opt_extension opts) ""));
    destruct (limit_truthy (opt_limit opts)).
  - apply (H [_; _; _]).
  - apply (H [_; _]).
  - apply (H [_; _]).
  - apply (H [_]).
  - apply (H [_; _]).
  - apply (H [_]).
  - apply (H [_]).
  - apply (H []).
Qed.

(** X19. The namer never returns ['results.csv'], the default of the output
    option, and never the empty string: the returned name is a path
    given on the command line, a generated name that starts with
    ['cms-scan-'], or a name that holds a timestamp after a ['-']. *)
Theorem output_never_default (env : Env) (opts : Options) :
  getOutputFilename env opts ≠ "results.csv" ∧ getOutputFilename env opts ≠ "".
Proof.
  assert (Hres : resolved_filename env opts ≠ "results.csv" ∧
                 resolved_filename env opts ≠ "").
  { unfold resolved_filename.
    destruct (String.eqb_spec (opt_output opts) ""); simpl.
    - destruct (generated_name_prefix env opts) as [rest ->]. by split.
    - destruct (String.eqb_spec (opt_output opts) "results.csv"); simpl; [|done].
      destruct (generated_name_prefix env opts) as [rest ->]. by split. }
  unfold getOutputFilename.
  destruct (existsSync env (resolved_filename env opts)); [|done].
  generalize (basename (resolved_filename env opts)
                (extname (resolved_filename env opts))).
  generalize (timestamp (now_exists env) +:+ extname (resolved_filename env opts)).
  intros tail base.
  assert (Hdash : "-"%char ∈ list_ascii_of_string (base +:+ "-" +:+ tail)).
  { rewrite list_of_string_app. apply elem_of_app. right. by left. }
  split; intros Heq; rewrite Heq in Hdash; revert Hdash;
    apply (bool_decide_unpack _); by vm_compute.
Qed.

Lemma sanitize_byte_chars (x c : ascii) :
  c ∈ list_ascii_of_string (sanitize_byte x) → is_alnum c = true ∨ c = "-"%char.
Proof.
  unfold sanitize_byte.
  destruct (nat_of_ascii x <? 128); [destruct (is_alnum x) eqn:Hx|
    destruct (nat_of_ascii x <? 192); [|destruct (nat_of_ascii x <? 240)]];
    cbn [list_ascii_of_string]; intros Hc;
    repeat (apply elem_of_cons in Hc as [->|Hc]; [by auto|]);
    by apply elem_of_nil in Hc.
Qed.

Lemma sanitize_chars (d : string) (c : ascii) :
  c ∈ list_ascii_of_string (sanitize d) → is_alnum c = true ∨ c = "-"%char.
Proof.
  induction d as [|x d IH]; cbn [sanitize].
  - intros Hc. by apply elem_of_nil in Hc.
  - rewrite list_of_string_app. intros [Hc|Hc]%elem_of_app; [|by apply IH].
    by apply (sanitize_byte_chars x).
Qed.

Lemma sanitize_ascii (d : string) :
  Forall (λ c, nat_of_ascii c < 128) (list_ascii_of_string d) →
  sanitize d = string_map (λ c, if is_alnum c then c else "-"%char) d.
Proof.
  induction d as [|x d IH]; cbn [sanitize list_ascii_of_string string_map]; [done|].
  intros [Hx Hd]%Forall_cons. rewrite (IH Hd). unfold sanitize_byte.
  rewrite (proj2 (Nat.ltb_lt _ _) Hx). by destruct (is_alnum x).
Qed.

(** X20. With [--domain], the generated name is ['cms-scan-single-'], the
    sanitised domain, ['-'], the timestamp and ['.csv']; the source,
    the extension and the limit do not enter it. The sanitised domain
    of an ASCII domain is the domain with ['-'] for every character
    that is not a letter or a digit; a character outside ASCII gives
    one ['-'] for each of its UTF-16 code units. *)
Theorem single_domain_name (env : Env) (opts : Options) (d : string) :
  opt_domain opts = Some d → d ≠ "" →
  generateDefaultFilename env opts =
    "cms-scan-single-" +:+ sanitize d +:+ "-" +:+
    timestamp (now_default env) +:+ ".csv" ∧
  (Forall (λ c, nat_of_ascii c < 128) (list_ascii_of_string d) →
   sanitize d = string_map (λ c, if is_alnum c then c else "-"%char) d) ∧
  (∀ c, c ∈ list_ascii_of_string (sanitize d) → is_alnum c = true ∨ c = "-"%char) ∧
  (has_slash (now_default env) = false →
   has_slash (generateDefaultFilename env opts) = false).
Proof.
  intros Hd Hne.
  assert (Hname : generateDefaultFilename env opts =
    "cms-scan-single-" +:+ sanitize d
    +:+ "-" +:+ timestamp (now_default env) +:+ ".csv").
  { unfold generateDefaultFilename. rewrite Hd. cbn [str_truthy].
    destruct (String.eqb_spec d ""); [done|]. cbn [negb default from_option Datatypes.id].
    generalize (sanitize d).
    generalize (timestamp (now_default env)). intros ts clean.
    transitivity ("cms-scan-single-" +:+ ((clean +:+ "-" +:+ ts) +:+ ".csv"));
      [reflexivity|].
    by rewrite !string_app_assoc. }
  split; [done|]. split; [apply sanitize_ascii|].
  split; [apply sanitize_chars|].
  intros Hnow. rewrite Hname, !has_slash_app, (timestamp_plain _ Hnow).
  assert (Hno : has_slash (sanitize d) = false).
  { unfold has_slash. apply not_true_is_false.
    intros (c & Hin%list_elem_of_In & Hc)%existsb_exists.
    destruct (sanitize_chars d c Hin) as [Ha| ->]; [|done].
    revert Ha Hc. destruct c as [[] [] [] [] [] [] [] []]; by vm_compute. }
  by rewrite Hno.
Qed.

Lemma single_domain_name_witness :
  generateDefaultFilename (sample_env always_umbraco [] [])
    (sample_opts None (Some "umbraco.com") "results.csv") =
  "cms-scan-single-umbraco-com-2024-01-15T10-30-00.csv".
Proof.
  destruct (single_domain_name (sample_env always_umbraco [] [])
              (sample_opts None (Some "umbraco.com") "results.csv")
              "umbraco.com" eq_refl) as (Hname & _);
    [discriminate|].
  rewrite Hname. reflexivity.
Defined.

(** ** What a run writes *)

Lemma scan_unbounded_counts (env : Env) (total : nat) (domains : list string)
    (i : nat) (st : ScanState) :
  length (rows (scan_unbounded env total i domains st)) =
    length (rows st) + length domains ∧
  (used (scan_unbounded env total i domains st) ≤
     used st + N.of_nat (length domains))%N.
Proof.
  revert i st. induction domains as [|d rest IH]; intros i st.
  - simpl. lia.
  - cbn [scan_unbounded]. destruct (IH (S i) (scan_domain env i total d st))
      as [Hlen Hused].
    rewrite scan_domain_rows, length_app in Hlen.
    rewrite scan_domain_used in Hused.
    simpl length in *. destruct (succeeds env i d); lia.
Qed.

(** X21. When the process writes its output, the path is the namer's, the
    records are the rows of the loop, and the counter reported at the
    end is no larger than the number of records. With a plan of the
    table the loop ran under that plan's quota over the prepared
    domains: the counter is within the quota, and there are no more
    records than domains. With a plan name that the table only
    inherits there is no quota: the loop completed, with one record
    for every domain. *)
Theorem written_output (env : Env) (opts : Options) (path : string)
    (records : list (gmap string jsval)) (st : status) (fin : ScanState) :
  main env opts = Written path records st fin →
  path = getOutputFilename env opts ∧
  records = rows fin ∧
  (used fin ≤ N.of_nat (length records))%N ∧
  ((∃ plan domains,
      prepare env opts = inr (plan, domains) ∧
      scan env plan domains = (st, fin) ∧
      (used fin ≤ monthlyQuota plan)%N ∧
      length records ≤ length domains) ∨
   (PLANS (opt_plan opts) = None ∧ inherited_name (opt_plan opts) = true ∧
    st = Completed ∧
    ∃ domains,
      domains_to_scan env opts = inr domains ∧
      fin = scan_unbounded env (length domains) 0 domains initial ∧
      length records = length domains)).
Proof.
  unfold main.
  destruct (prepare env opts) as [stop|[plan domains]] eqn:Hprep.
  { intros ->. unfold prepare in Hprep.
    destruct (negb (str_truthy (api_key env))); [discriminate Hprep|].
    destruct (String.eqb (opt_source opts) "alexa"); [discriminate Hprep|].
    destruct (PLANS (opt_plan opts)) as [plan|] eqn:Hplan.
    { destruct (domains_to_scan env opts) as [stop|domains] eqn:Hd;
        [|discriminate Hprep].
      injection Hprep as ->.
      apply domains_to_scan_stop in Hd as [Hd|[Hd|[Hd _]]]; discriminate Hd. }
    destruct (inherited_name (opt_plan opts)) eqn:Hin; [|discriminate Hprep].
    injection Hprep as Hrun. unfold run_without_quota in Hrun.
    destruct (domains_to_scan env opts) as [stop|domains] eqn:Hd.
    { subst stop.
      apply domains_to_scan_stop in Hd as [Hd|[Hd|[Hd _]]]; discriminate Hd. }
    cbv zeta in Hrun. injection Hrun as <- <- <- <-.
    destruct (scan_unbounded_counts env (length domains) domains 0 initial)
      as [Hlen Hused].
    cbn [rows used initial length] in Hlen, Hused.
    split; [done|]. split; [done|]. split; [lia|].
    right. repeat split; try done. by exists domains. }
  destruct (scan env plan domains) as [st' fin'] eqn:Hscan.
  intros [= <- <- <- <-].
  pose proof (scan_loop_quota env plan (length domains) domains 0 initial
                (N.le_0_l _)) as Hq.
  pose proof (scan_loop_successes env plan (length domains) domains 0 initial
                eq_refl) as Hu.
  pose proof (successes_le_requests env
                (trace (scan_loop env plan (length domains) 0 domains initial).2))
    as Hs.
  cbv zeta in Hu.
  destruct (scan_loop_turns env plan (length domains) domains 0 initial)
    as (k & Hk & Hrows & Hreq & _).
  change (scan_loop env plan (length domains) 0 domains initial)
    with (scan env plan domains) in *.
  rewrite Hscan in *. cbn [fst snd] in *.
  assert (Hlen : length (rows fin') = k).
  { rewrite Hrows. cbn [rows initial app]. rewrite length_imap, length_take. lia. }
  assert (Hlenreq : length (requests (trace fin')) = k).
  { rewrite Hreq. cbn [trace initial requests omap app].
    change (length (take k domains) = k). rewrite length_take. lia. }
  split; [done|]. split; [done|]. split; [lia|].
  left. exists plan, domains. repeat split; try done; lia.
Qed.

Lemma written_output_witness :
  let env := sample_env always_umbraco ["a.nl"; "b.nl"] [] in
  let opts :=
    {| opt_plan := "constructor"; opt_source := "tranco"; opt_extension := "nl";
       opt_fetch := false; opt_input := Some "domains.txt";
       opt_domain := None; opt_limit := None; opt_output := "results.csv" |} in
  let fin := scan_unbounded env 2 0 ["a.nl"; "b.nl"] initial in
  main env opts = Written (getOutputFilename env opts) (rows fin) Completed fin ∧
  (used fin ≤ N.of_nat (length (rows fin)))%N.
Proof.
  intros env opts fin. split; [reflexivity|].
  destruct (written_output env opts (getOutputFilename env opts) (rows fin)
              Completed fin eq_refl) as (_ & _ & H & _).
  exact H.
Defined.

(** ** Cells *)

Section cells.
Context (P : jsval → Prop).
Context (cn cd cv cc cu : nat → jsval).
Context (domain request last_checked result_code result_msg
         results_count results_json meta_social_json error : jsval).
Context (Hn : ∀ i, P (cn i)) (Hd : ∀ i, P (cd i)) (Hv : ∀ i, P (cv i)).
Context (Hc : ∀ i, P (cc i)) (Hu : ∀ i, P (cu i)).
Context (Hbase : Forall P [domain; request; last_checked; result_code;
                           result_msg; results_count; results_json;
                           meta_social_json; error]).

Lemma ten_slots_values (key : string) (v : jsval) :
  ten_slots cn cd cv cc cu
    (base_row domain request last_checked result_code result_msg
       results_count results_json meta_social_json error) !! key = Some v →
  P v.
Proof.
  intros Hv'.
  assert (Hkey : key ∈ header_ids).
  { apply (elem_of_list_to_set (C := gset string)).
    rewrite <- (ten_slots_dom cn cd cv cc cu domain request last_checked
                  result_code result_msg results_count results_json
                  meta_social_json error).
    apply elem_of_dom. by exists v. }
  repeat match goal with
  | H : Forall P (_ :: _) |- _ => apply Forall_cons in H as [? H]
  end.
  header_cases Hkey; vm_compute in Hv'; injection Hv' as <-;
    first [assumption | apply Hn | apply Hd | apply Hv | apply Hc | apply Hu].
Qed.
End cells.

Lemma js_or_present (v : jsval) :
  js_or v (JString "") ≠ JUndefined ∧ js_or v (JString "") ≠ JNull.
Proof. split; apply js_or_defined. Qed.

Lemma cell_defined (f : Tech → jsval) (rs : list Tech) (i : nat) :
  (∀ t, f t ≠ JUndefined ∧ f t ≠ JNull) →
  cell f rs i ≠ JUndefined ∧ cell f rs i ≠ JNull.
Proof. intros Hf. unfold cell. by destruct (rs !! i). Qed.

(** X22. No cell of a row that the loop pushes is [undefined] or [null],
    whatever the upstream answered: absent and falsy values were
    replaced by [''] on the way. *)
Theorem rows_hold_no_undefined (env : Env) (plan : Plan) (domains : list string) :
  Forall (λ row : gmap string jsval,
            ∀ key v, row !! key = Some v → v ≠ JUndefined ∧ v ≠ JNull)
    (rows (scan env plan domains).2).
Proof.
  destruct (scan_loop_turns env plan (length domains) domains 0 initial)
    as (k & _ & Hrows & _).
  change (scan_loop env plan (length domains) 0 domains initial)
    with (scan env plan domains) in Hrows.
  rewrite Hrows. cbn [rows initial app]. apply Forall_forall.
  intros row (j & d & -> & _)%elem_of_lookup_imap key v.
  unfold row_of.
  destruct (axios_get env (0 + j) d) as [m|data]; cbn [detectCMS].
  { rewrite error_row_ten.
    apply (ten_slots_values (λ v, v ≠ JUndefined ∧ v ≠ JNull)); try done.
    by repeat constructor. }
  destruct (truthy (data_error data)).
  { rewrite error_row_ten.
    apply (ten_slots_values (λ v, v ≠ JUndefined ∧ v ≠ JNull)); try done.
    by repeat constructor. }
  match goal with
  | |- context [find_umbraco ?l] => destruct (find_umbraco l)
  end.
  2:{ rewrite error_row_ten.
      apply (ten_slots_values (λ v, v ≠ JUndefined ∧ v ≠ JNull)); try done.
      by repeat constructor. }
  match goal with
  | |- context [slots_throw ?l] => destruct (slots_throw l)
  end.
  { rewrite error_row_ten.
    apply (ten_slots_values (λ v, v ≠ JUndefined ∧ v ≠ JNull)); try done.
    by repeat constructor. }
  rewrite result_row_ten. cbn [request last_checked result_code result_msg
                               results meta_social error].
  apply (ten_slots_values (λ v, v ≠ JUndefined ∧ v ≠ JNull)).
  - intros i. apply cell_defined. intros t. unfold name_cell. apply js_or_present.
  - intros i. apply cell_defined. intros t. unfold id_cell. apply js_or_present.
  - intros i. apply cell_defined. intros t. unfold version_cell. apply js_or_present.
  - intros i. apply cell_defined. intros t.
    unfold categories_cell, categories_text. by destruct (categories t).
  - intros i. apply cell_defined. intros t. unfold url_cell. apply js_or_present.
  - repeat constructor; try done; apply js_or_present.
Qed.
